(** * Cyclical DCF: a Monte Carlo model of a levered company's dividends

    Shallow embedding of [main.py]: the discounting function [dcf], the
    company record built by [generate_company], the yearly profit draw
    [gen_profit], the interest rate [debt_cost] and the simulation loop
    [generate_company_cfs].

    Numbers.  Python floats are idealised as exact rationals ([Q]); every
    arithmetic result is stored in lowest terms ([Qred]), which changes the
    representation only, never the value.  Rounding of binary64 is therefore
    outside this model.

    Run-time types.  [np.random.choice(..., 1, ...)] returns a one-element
    numpy array, so the profit of a year is an array, and so are the equity
    and the debt once a profit has been added to them.  Plain Python numbers
    and numpy values differ where the program divides: Python raises
    [ZeroDivisionError], numpy returns [inf] or [nan] (with a warning only).
    Values therefore carry their run-time type ([pyval]), and quotients live
    in the rationals extended with the two infinities and NaN ([xnum]). *)

From Stdlib Require Import ZArith QArith Qround Qpower Qreduction.
From Stdlib Require Import Lqa Lia List Bool Permutation Morphisms Setoid.
Import ListNotations.

Open Scope Q_scope.

(** ** Exceptions and results *)

Inductive exn : Set :=
| ZeroDivisionError   (* Python number divided by zero, 0.0 ** negative *)
| OverflowError       (* math.floor of an infinity *)
| ValueError.         (* math.floor of NaN *)

(** [Timeout] is not a Python outcome: it marks a loop model that ran out of
    fuel.  [generate_company_cfs_total] shows that it never comes out of the
    simulation. *)
Inductive result (A : Type) : Type :=
| Ok (a : A)
| Raise (e : exn)
| Timeout.

Arguments Ok {A} a.
Arguments Raise {A} e.
Arguments Timeout {A}.

Definition bind {A B : Type} (r : result A) (k : A -> result B) : result B :=
  match r with
  | Ok a => k a
  | Raise e => Raise e
  | Timeout => Timeout
  end.

Notation "x <- r ;; k" := (bind r (fun x => k))
  (at level 61, r at next level, right associativity).

(** ** Values *)

(** A finite number together with its run-time type: a plain Python number
    (int or float) or a numpy value (here always a one-element array). *)
Inductive pyval : Set :=
| PyNum (q : Q)
| NdArray (q : Q).

Definition val (v : pyval) : Q :=
  match v with PyNum q | NdArray q => q end.

Definition is_array (v : pyval) : bool :=
  match v with PyNum _ => false | NdArray _ => true end.

(** A binary operator: the result is a numpy value as soon as one operand
    is one.  The value is the exact one: the rounding of binary64, and its
    overflow to an infinity, are not modelled, so a comparison the program
    makes between two numbers that are equal here can go either way there. *)
Definition lift2 (f : Q -> Q -> Q) (a b : pyval) : pyval :=
  if is_array a || is_array b
  then NdArray (Qred (f (val a) (val b)))
  else PyNum (Qred (f (val a) (val b))).

Definition py_add : pyval -> pyval -> pyval := lift2 Qplus.
Definition py_sub : pyval -> pyval -> pyval := lift2 Qminus.
Definition py_mul : pyval -> pyval -> pyval := lift2 Qmult.

(** [a >= b] *)
Definition py_ge (a b : pyval) : bool := Qle_bool (val b) (val a).

Declare Scope py_scope.
Delimit Scope py_scope with py.
Bind Scope py_scope with pyval.
Infix "+" := py_add : py_scope.
Infix "-" := py_sub : py_scope.
Infix "*" := py_mul : py_scope.

(** Rationals extended with what IEEE division by zero produces. *)
Inductive xnum : Set :=
| Finite (q : Q)
| PosInf
| NegInf
| NaN.

(** numpy's [n / 0.0]: the sign of the numerator decides, [0 / 0] is NaN. *)
Definition np_zero_divide (n : Q) : xnum :=
  if Qlt_le_dec 0 n then PosInf
  else if Qlt_le_dec n 0 then NegInf
  else NaN.

(** True division [a / b].  Two Python numbers raise on a zero divisor; as
    soon as a numpy value is involved the quotient is an infinity or NaN.
    The run-time type of a quotient is not recorded: the program only
    compares quotients, floors them and sums them.  A quotient by a nonzero
    divisor is the exact one: binary64 can overflow it to an infinity (a
    huge numerator over a tiny divisor), which is not modelled. *)
Definition py_div (a b : pyval) : result xnum :=
  if Qeq_bool (val b) 0 then
    if is_array a || is_array b
    then Ok (np_zero_divide (val a))
    else Raise ZeroDivisionError
  else Ok (Finite (Qred (val a / val b))).

(** [x >= t] for a quotient [x]: every comparison with NaN is false. *)
Definition x_ge (x : xnum) (t : pyval) : bool :=
  match x with
  | Finite q => Qle_bool (val t) q
  | PosInf => true
  | NegInf => false
  | NaN => false
  end.

(** [x < t] *)
Definition x_lt (x : xnum) (t : pyval) : bool :=
  match x with
  | Finite q => negb (Qle_bool (val t) q)
  | PosInf => false
  | NegInf => true
  | NaN => false
  end.

(** [x * 2] *)
Definition x_double (x : xnum) : xnum :=
  match x with
  | Finite q => Finite (Qred (q * 2))
  | other => other
  end.

(** [x + y] on extended numbers. *)
Definition x_add (x y : xnum) : xnum :=
  match x, y with
  | Finite a, Finite b => Finite (Qred (a + b))
  | NaN, _ | _, NaN => NaN
  | PosInf, NegInf | NegInf, PosInf => NaN
  | PosInf, _ | _, PosInf => PosInf
  | NegInf, _ | _, NegInf => NegInf
  end.

(** [math.floor]: an int, or an exception on a non-finite argument. *)
Definition math_floor (x : xnum) : result Z :=
  match x with
  | Finite q => Ok (Qfloor q)
  | PosInf | NegInf => Raise OverflowError
  | NaN => Raise ValueError
  end.

(** ** The random generator *)

(** The state of numpy's global generator: the stream of indices it will
    hand out. *)
Definition rng : Type := nat -> nat.

Definition rng_next (g : rng) : nat * rng := (g O, fun n => g (S n)).

(** One draw of [np.random.choice(a, 1, ...)]: an element of [a], as a
    one-element array. *)
Definition np_random_choice (a : list Q) (g : rng) : pyval * rng :=
  let (i, g') := rng_next g in
  (NdArray (nth (i mod length a) a 0), g').

(** The arguments of [numpy.random.choice(a, size=None, replace=True, p=None)]
    after Python has bound the positional arguments of a call. *)
Record choice_call : Type := {
  choice_a : list Q;
  choice_size : nat;
  choice_replace : list Q + bool;
  choice_p : option (list Q)
}.

(** The law of a single draw, as [(value, probability)] pairs: the weights
    [p] when they are given, uniform over [a] otherwise. *)
Definition choice_law (call : choice_call) : list (Q * Q) :=
  match choice_p call with
  | Some w => combine (choice_a call) w
  | None =>
      map (fun x => (x, 1 / inject_Z (Z.of_nat (length (choice_a call)))))
          (choice_a call)
  end.

(** The probability a law gives to drawing [x]. *)
Definition prob (law : list (Q * Q)) (x : Q) : Q :=
  fold_right (fun vp acc => if Qeq_bool (fst vp) x then snd vp + acc else acc)
             0 law.

(** ** The company *)

(** A cash flow [[amount, year]]. *)
Record cashflow : Set := {
  amount : pyval;
  cf_year : Z
}.

Record company : Set := {
  equity : pyval;
  target_leverage : pyval;
  debt : pyval;
  reinvest_rate : pyval;
  cfs : list cashflow
}.

Definition set_equity (c : company) (v : pyval) : company :=
  {| equity := v; target_leverage := target_leverage c; debt := debt c;
     reinvest_rate := reinvest_rate c; cfs := cfs c |}.

Definition set_debt (c : company) (v : pyval) : company :=
  {| equity := equity c; target_leverage := target_leverage c; debt := v;
     reinvest_rate := reinvest_rate c; cfs := cfs c |}.

(** [company['cfs'].append([a, year])] *)
Definition append_cf (c : company) (a : pyval) (year : Z) : company :=
  {| equity := equity c; target_leverage := target_leverage c; debt := debt c;
     reinvest_rate := reinvest_rate c;
     cfs := cfs c ++ [{| amount := a; cf_year := year |}] |}.

Definition rfr : Q := 0.04.

Definition generate_company (equity target_leverage reinvest_rate : pyval)
  : company :=
  let debt := (equity * target_leverage - equity)%py in
  {| equity := equity; target_leverage := target_leverage; debt := debt;
     reinvest_rate := reinvest_rate; cfs := [] |}.

(** [(company['debt'] + company['equity']) / company['equity']] *)
Definition leverage (c : company) : result xnum :=
  py_div (debt c + equity c)%py (equity c).

Definition debt_cost (c : company) : result pyval :=
  actual_leverage <- leverage c ;;
  if x_ge actual_leverage (PyNum 0) then
    steps <- math_floor (x_double actual_leverage) ;;
    Ok (PyNum rfr + PyNum 0.005 + PyNum (inject_Z steps) * PyNum 0.01)%py
  else Ok (PyNum rfr).

(** The call [np.random.choice([.3, .2, -.1, -.3], 1, [.3, .3, .25, .05])]:
    the third positional parameter of [choice] is [replace], so that is
    where the list of weights lands, and [p] keeps its default. *)
Definition roa_outcomes : list Q := [0.3; 0.2; -0.1; -0.3].

Definition roa_call : choice_call :=
  {| choice_a := roa_outcomes;
     choice_size := 1;
     choice_replace := inl [0.3; 0.3; 0.25; 0.05];
     choice_p := None |}.

Definition gen_profit (c : company) (profit_bump : pyval) (g : rng)
  : result (pyval * rng) :=
  let (draw, g') := np_random_choice (choice_a roa_call) g in
  let roa := (draw + profit_bump)%py in
  let ebit := (roa * (equity c + debt c))%py in
  cost <- debt_cost c ;;
  Ok ((ebit - cost * debt c)%py, g').

(** Lines 84-97: what the loop does with a year's profit. *)
Definition apply_profit (c : company) (actual_leverage : xnum)
    (profit : pyval) (year : Z) : company :=
  if py_ge profit (PyNum 0) then
    if x_ge actual_leverage (target_leverage c) then
      let c := set_debt c (debt c - profit)%py in
      let c := set_equity c (equity c + profit)%py in
      append_cf c (PyNum 0) year
    else
      let dividend := (profit * (PyNum 1 - reinvest_rate c))%py in
      let retained := (profit * reinvest_rate c)%py in
      let c := set_equity c (equity c + retained)%py in
      let c := set_debt c (equity c * target_leverage c - equity c)%py in
      append_cf c dividend year
  else
    let c := set_equity c (equity c + profit)%py in
    append_cf c (PyNum 0) year.

(** Lines 82-97: the body of the loop for the (already incremented) year. *)
Definition year_step (c : company) (profit_bump : pyval) (year : Z) (g : rng)
  : result (company * rng) :=
  pg <- gen_profit c profit_bump g ;;
  actual_leverage <- leverage c ;;
  Ok (apply_profit c actual_leverage (fst pg) year, snd pg).

(** [while company['equity'] >= 0 and year <= 50: ...] *)
Definition loop_guard (c : company) (year : Z) : bool :=
  py_ge (equity c) (PyNum 0) && (year <=? 50)%Z.

Fixpoint while_loop (fuel : nat) (c : company) (profit_bump : pyval)
    (year : Z) (g : rng) : result (company * rng) :=
  if loop_guard c year then
    match fuel with
    | O => Timeout
    | S fuel' =>
        let year := (year + 1)%Z in
        cg <- year_step c profit_bump year g ;;
        while_loop fuel' (fst cg) profit_bump year (snd cg)
    end
  else Ok (c, g).

Definition generate_company_cfs (c : company) (profit_bump : pyval) (g : rng)
  : result (company * rng) :=
  while_loop 51 c profit_bump 0%Z g.

(** ** Discounting *)

(** [b ** n] for a Python float [b] and an int [n].  The power is the exact
    one: in binary64 it can underflow to 0.0 (base close to 0) and Python
    raises [OverflowError] when it overflows (large base), neither of which
    is modelled. *)
Definition py_pow (b : Q) (n : Z) : result Q :=
  if Qeq_bool b 0 && (n <? 0)%Z then Raise ZeroDivisionError
  else Ok (Qred (b ^ n)).

(** [cf[0] / (1 + rate) ** cf[1]] *)
Definition discounted (rate : Q) (cf : cashflow) : result xnum :=
  d <- py_pow (Qred (1 + rate)) (cf_year cf) ;;
  py_div (amount cf) (PyNum d).

(** A list comprehension [[f x for x in l]]: the first exception ends it. *)
Fixpoint comprehension {A B : Type} (f : A -> result B) (l : list A)
  : result (list B) :=
  match l with
  | [] => Ok []
  | x :: l' =>
      y <- f x ;;
      ys <- comprehension f l' ;;
      Ok (y :: ys)
  end.

(** [sum(l)]: left to right, from the int 0. *)
Definition py_sum (l : list xnum) : xnum := fold_left x_add l (Finite 0).

(** The default of the parameter [rate], evaluated when [dcf] is defined. *)
Definition dcf_default_rate : Q := Qred (rfr + 0.06).

(** [rate] is a plain Python number; [None] is an omitted argument. *)
Definition dcf (cashflows : list cashflow) (rate : option Q) : result xnum :=
  let rate := match rate with Some r => r | None => dcf_default_rate end in
  terms <- comprehension (discounted rate) cashflows ;;
  Ok (py_sum terms).

(** [simulate]: one outcome per trial, the generator threaded through. *)
Fixpoint simulate (rate : Q) (target_leverage reinvest_rate : pyval)
    (trials : nat) (profit_bump : pyval) (g : rng)
  : result (list xnum * rng) :=
  match trials with
  | O => Ok ([], g)
  | S trials' =>
      cg <- generate_company_cfs
              (generate_company (PyNum 10) target_leverage reinvest_rate)
              profit_bump g ;;
      v <- dcf (cfs (fst cg)) (Some rate) ;;
      rest <- simulate rate target_leverage reinvest_rate trials'
                       profit_bump (snd cg) ;;
      Ok (v :: fst rest, snd rest)
  end.

(** * Vocabulary of the properties, and example inputs *)

(** A company as [simulate] builds it, with the defaults of
    [generate_company]: equity 10, target leverage 2, reinvestment rate 0.5. *)
Definition default_company : company :=
  generate_company (PyNum 10) (PyNum 2) (PyNum 0.5).

(** The default company after one good year ([apply_profit] has paid down
    debt, so its leverage has dropped below the target). *)
Definition after_paydown : company :=
  apply_profit default_company (Finite 2) (NdArray 6.45) 1.

(** The last recorded event. *)
Definition last_event (c : company) : option cashflow := hd_error (rev (cfs c)).

(** The years [1 .. n]. *)
Definition years (n : nat) : list Z := map Z.of_nat (seq 1 n).

(** What the loop keeps true of the company and of [year], in a run that
    started from [c0]. *)
Definition run_inv (c0 c : company) (year : Z) : Prop :=
  (0 <= year <= 51)%Z /\
  map cf_year (cfs c) = years (Z.to_nat year) /\
  (year = 0%Z -> c = c0) /\
  reinvest_rate c = reinvest_rate c0 /\
  (0 <= val (reinvest_rate c0) -> val (equity c) < 0 ->
   (0 < year)%Z /\
   last_event c = Some {| amount := PyNum 0; cf_year := year |}).

(** The generator whose draws cycle through the four outcomes in order:
    0.3, 0.2, -0.1, -0.3, 0.3, ... *)
Definition cycling_draws : rng := fun n => n.

(** The claim that a run which returns with fewer than 50 recorded years has
    negative equity, its last event being the zero-amount event of the year
    the loop exits in. *)
Definition early_exit_is_a_loss (c0 : company) (bump : pyval) (g : rng)
  : Prop :=
  forall (c' : company) (g' : rng),
    generate_company_cfs c0 bump g = Ok (c', g') ->
    (length (cfs c') < 50)%nat ->
    val (equity c') < 0 /\
    exists ev, last_event c' = Some ev /\
               val (amount ev) == 0 /\
               cf_year ev = Z.of_nat (length (cfs c')).

(** A company outside the data model: it "reinvests" -100 times its profit. *)
Definition disinvesting_company : company :=
  generate_company (PyNum 10) (PyNum 2) (PyNum (-100)).

Definition good_years : rng := fun _ => 0%nat.

(** Two good years, then the worst outcome every year. *)
Definition bad_years : rng := fun n => match n with 0 | 1 => 0 | _ => 3 end%nat.

(** What a recorded event may be: a literal 0, or the paid-out share of a
    nonnegative profit. *)
Definition dividend_event (rr : pyval) (cf : cashflow) : Prop :=
  amount cf = PyNum 0 \/
  exists profit, 0 <= val profit /\ amount cf = (profit * (PyNum 1 - rr))%py.

(** The present value in the words of the specification: the sum over the
    sequence of [amount / (1 + rate) ^ year]. *)
Definition present_value (cashflows : list cashflow) (rate : Q) : Q :=
  fold_right
    (fun cf acc => val (amount cf) / (1 + rate) ^ cf_year cf + acc)
    0 cashflows.

(** Two dividends, of 1.5 after two years and of 2 after one year. *)
Definition two_dividends : list cashflow :=
  [ {| amount := NdArray 1.5; cf_year := 2 |};
    {| amount := NdArray 2; cf_year := 1 |} ].

(** Equality of values: extended numbers up to the representation of a
    rational, results up to that. *)
Definition x_eq (x y : xnum) : Prop :=
  match x, y with
  | Finite a, Finite b => a == b
  | PosInf, PosInf | NegInf, NegInf | NaN, NaN => True
  | _, _ => False
  end.

Definition result_eq (r s : result xnum) : Prop :=
  match r, s with
  | Ok x, Ok y => x_eq x y
  | Raise e, Raise e' => e = e'
  | Timeout, Timeout => True
  | _, _ => False
  end.

(** What a fallible computation yields when it succeeds. *)
Definition is_ok {A : Type} (r : result A) : bool :=
  match r with Ok _ => true | _ => false end.

Definition value_or {A : Type} (d : A) (r : result A) : A :=
  match r with Ok a => a | _ => d end.

(** The claim that zero equity makes the interest-rate computation, and so
    the simulation step, fail with a division-by-zero error. *)
Definition zero_equity_raises (c : company) : Prop :=
  val (equity c) == 0 ->
  debt_cost c = Raise ZeroDivisionError /\
  forall (bump : pyval) (year : Z) (g : rng),
    year_step c bump year g = Raise ZeroDivisionError.

(** An all-equity company, a profit bump of -0.7 and the worst outcome every
    year: the first year's return on assets is -0.3 - 0.7 = -1, which wipes
    out the equity exactly. *)
Definition unlevered_company : company :=
  generate_company (PyNum 10) (PyNum 1) (PyNum 0.5).

Definition worst_years : rng := fun _ => 3%nat.

(** A Python company built with no equity, and the wiped-out company of the
    run above. *)
Definition empty_company : company :=
  generate_company (PyNum 0) (PyNum 2) (PyNum 0.5).

Definition wiped_out_company : company :=
  apply_profit unlevered_company (Finite 1) (NdArray (-10)) 1.

(** What a run keeps true of the company [d], the year [y] and the
    generator [h], when it started from [c] and [g]. *)
Definition run_trace (c : company) (g : rng) (d : company) (y : Z) (h : rng)
  : Prop :=
  (0 <= y <= 51)%Z /\
  target_leverage d = target_leverage c /\
  reinvest_rate d = reinvest_rate c /\
  (exists new, cfs d = cfs c ++ new /\
               length new = Z.to_nat y /\
               map cf_year new = years (Z.to_nat y)) /\
  (forall i, h i = g (i + Z.to_nat y)%nat) /\
  (y = 0%Z -> d = c) /\
  ((0 < y)%Z -> is_array (equity d) = true).

(** [b] is [a] scaled by [k], with the same run-time type. *)
Definition scaled (k : Q) (a b : pyval) : Prop :=
  val b == k * val a /\ is_array b = is_array a.

Definition scaled_cashflow (k : Q) (cf cf' : cashflow) : Prop :=
  scaled k (amount cf) (amount cf') /\ cf_year cf' = cf_year cf.

(** The undiscounted total of a sequence of cash flows. *)
Definition total (cashflows : list cashflow) : Q :=
  fold_right (fun cf acc => val (amount cf) + acc) 0 cashflows.

(** The event pays something. *)
Definition pays (cf : cashflow) : bool :=
  negb (Qeq_bool (val (amount cf)) 0).

(** A year without a dividend, then a dividend. *)
Definition paydown_then_dividend : list cashflow :=
  [ {| amount := PyNum 0; cf_year := 1 |};
    {| amount := NdArray 2.5; cf_year := 2 |} ].

(** Three trials at the settings of the repository's default run. *)
Definition three_trials : result (list xnum * rng) :=
  simulate 0.095 (PyNum 2) (PyNum 0.5) 3 (PyNum 0.065) bad_years.

(** * Properties *)

(** Reduced fractions stay folded in goals. *)
#[local] Arguments Qred : simpl never.

(** ** Arithmetic of values *)

Lemma val_lift2 (f : Q -> Q -> Q) (a b : pyval) :
  val (lift2 f a b) == f (val a) (val b).
Proof.
  unfold lift2. destruct (is_array a || is_array b); simpl; apply Qred_correct.
Qed.

Lemma val_py_add (a b : pyval) : val (a + b)%py == val a + val b.
Proof. apply val_lift2. Qed.

Lemma val_py_sub (a b : pyval) : val (a - b)%py == val a - val b.
Proof. apply val_lift2. Qed.

Lemma val_py_mul (a b : pyval) : val (a * b)%py == val a * val b.
Proof. apply val_lift2. Qed.

Lemma is_array_lift2 (f : Q -> Q -> Q) (a b : pyval) :
  is_array (lift2 f a b) = is_array a || is_array b.
Proof. unfold lift2. destruct (is_array a || is_array b); reflexivity. Qed.

Lemma py_ge_true (a b : pyval) : py_ge a b = true <-> val b <= val a.
Proof. unfold py_ge. apply Qle_bool_iff. Qed.

Lemma py_ge_false (a b : pyval) : py_ge a b = false <-> val a < val b.
Proof.
  unfold py_ge. split; intro H.
  - apply Qnot_le_lt. intro Hle. apply Qle_bool_iff in Hle. congruence.
  - destruct (Qle_bool (val b) (val a)) eqn:E; [|reflexivity].
    apply Qle_bool_iff in E. exfalso. apply (Qlt_not_le _ _ H E).
Qed.

Lemma x_lt_not_ge (x : xnum) (t : pyval) : x_lt x t = true -> x_ge x t = false.
Proof. destruct x; simpl; try discriminate; try reflexivity.
  intro H. apply negb_true_iff in H. exact H. Qed.

(** Rewriting the value of an arithmetic expression into plain [Q]. *)
Ltac py_val :=
  repeat (rewrite val_py_add || rewrite val_py_sub || rewrite val_py_mul);
  cbn [val].

(** The quotient of the leverage when the equity is not zero. *)
Lemma leverage_nonzero (c : company) :
  ~ val (equity c) == 0 ->
  exists q, leverage c = Ok (Finite q) /\
            q == (val (debt c) + val (equity c)) / val (equity c).
Proof.
  intro Hne. unfold leverage, py_div.
  destruct (Qeq_bool (val (equity c)) 0) eqn:E.
  - apply Qeq_bool_iff in E. contradiction.
  - eexists. split; [reflexivity|].
    rewrite Qred_correct. py_val. reflexivity.
Qed.

(** ** The yearly transition *)

Section YearlyTransition.

Variables (c : company) (al : xnum) (profit : pyval) (year : Z).

(** Profit and leverage at or above target: the profit pays down debt. *)
Lemma apply_profit_paydown :
  0 <= val profit -> x_ge al (target_leverage c) = true ->
  val (debt (apply_profit c al profit year)) == val (debt c) - val profit /\
  val (equity (apply_profit c al profit year))
    == val (equity c) + val profit /\
  cfs (apply_profit c al profit year)
    = cfs c ++ [{| amount := PyNum 0; cf_year := year |}].
Proof.
  intros Hp Hl. unfold apply_profit.
  apply (py_ge_true profit (PyNum 0)) in Hp. rewrite Hp, Hl. cbn.
  repeat split; py_val; reflexivity.
Qed.

(** Profit and leverage not at target: part is retained, the rest is paid
    out, and the debt is set from the new equity. *)
Lemma apply_profit_reinvest :
  0 <= val profit -> x_ge al (target_leverage c) = false ->
  (exists dividend,
      cfs (apply_profit c al profit year)
        = cfs c ++ [{| amount := dividend; cf_year := year |}] /\
      val dividend == val profit * (1 - val (reinvest_rate c))) /\
  val (equity (apply_profit c al profit year))
    == val (equity c) + val profit * val (reinvest_rate c) /\
  val (debt (apply_profit c al profit year))
    == val (equity (apply_profit c al profit year)) * val (target_leverage c)
       - val (equity (apply_profit c al profit year)).
Proof.
  intros Hp Hl. unfold apply_profit.
  apply (py_ge_true profit (PyNum 0)) in Hp. rewrite Hp, Hl. cbn.
  repeat split.
  - eexists. split; [reflexivity|]. py_val. reflexivity.
  - py_val. reflexivity.
  - py_val. reflexivity.
Qed.

(** A loss: the equity absorbs it. *)
Lemma apply_profit_loss :
  val profit < 0 ->
  val (equity (apply_profit c al profit year))
    == val (equity c) + val profit /\
  debt (apply_profit c al profit year) = debt c /\
  cfs (apply_profit c al profit year)
    = cfs c ++ [{| amount := PyNum 0; cf_year := year |}].
Proof.
  intros Hp. unfold apply_profit.
  apply (py_ge_false profit (PyNum 0)) in Hp. rewrite Hp. cbn.
  repeat split. py_val. reflexivity.
Qed.

(** The policy parameters are never written. *)
Lemma apply_profit_parameters :
  target_leverage (apply_profit c al profit year) = target_leverage c /\
  reinvest_rate (apply_profit c al profit year) = reinvest_rate c.
Proof.
  unfold apply_profit.
  destruct (py_ge profit (PyNum 0));
    [destruct (x_ge al (target_leverage c))|];
    split; reflexivity.
Qed.

End YearlyTransition.

(** C2.  The yearly transition, for every company state, every profit and
    the leverage [(debt + equity) / equity] of that state:
    - profit >= 0 and leverage >= target: the debt decreases by the profit,
      the equity increases by it, the recorded dividend is 0;
    - profit >= 0 and leverage < target: the recorded dividend is
      profit * (1 - reinvest_rate), the equity increases by
      profit * reinvest_rate, and the debt is reset to
      equity * target_leverage - equity for the new equity;
    - profit < 0: the equity increases by the (negative) profit, the debt is
      unchanged, the recorded dividend is 0. *)
Theorem yearly_transition (c : company) (al : xnum) (profit : pyval)
    (year : Z) :
  leverage c = Ok al ->
  let c' := apply_profit c al profit year in
  (0 <= val profit -> x_ge al (target_leverage c) = true ->
     val (debt c') == val (debt c) - val profit /\
     val (equity c') == val (equity c) + val profit /\
     cfs c' = cfs c ++ [{| amount := PyNum 0; cf_year := year |}]) /\
  (0 <= val profit -> x_lt al (target_leverage c) = true ->
     (exists dividend,
        cfs c' = cfs c ++ [{| amount := dividend; cf_year := year |}] /\
        val dividend == val profit * (1 - val (reinvest_rate c))) /\
     val (equity c') == val (equity c) + val profit * val (reinvest_rate c) /\
     val (debt c') ==
       val (equity c') * val (target_leverage c) - val (equity c')) /\
  (val profit < 0 ->
     val (equity c') == val (equity c) + val profit /\
     debt c' = debt c /\
     cfs c' = cfs c ++ [{| amount := PyNum 0; cf_year := year |}]).
Proof.
  intros _ c'. subst c'. repeat split.
  - apply apply_profit_paydown; assumption.
  - apply apply_profit_paydown; assumption.
  - apply apply_profit_paydown; assumption.
  - apply apply_profit_reinvest; auto using x_lt_not_ge.
  - apply apply_profit_reinvest; auto using x_lt_not_ge.
  - apply apply_profit_reinvest; auto using x_lt_not_ge.
  - apply apply_profit_loss; assumption.
  - apply apply_profit_loss; assumption.
  - apply apply_profit_loss; assumption.
Qed.

Lemma yearly_transition_witness :
  leverage default_company = Ok (Finite 2) /\
  val (debt (apply_profit default_company (Finite 2) (NdArray 6.45) 1))
    == val (debt default_company) - 6.45 /\
  val (equity (apply_profit default_company (Finite 2) (NdArray 6.45) 1))
    == val (equity default_company) + 6.45.
Proof.
  split; [reflexivity|].
  destruct (yearly_transition default_company (Finite 2) (NdArray 6.45) 1
              eq_refl) as [H _].
  destruct H as (Hd & He & _).
  - vm_compute. discriminate.
  - reflexivity.
  - split; assumption.
Defined.

(** ** The leverage equation *)

Lemma generate_company_debt (e tl rr : pyval) :
  val (debt (generate_company e tl rr)) == val e * val tl - val e.
Proof. unfold generate_company. cbn [debt]. py_val. reflexivity. Qed.

(** C3.  [debt == equity * target_leverage - equity] holds for the company
    [generate_company] returns, and holds again after every step of the loop
    that takes the reinvestment branch (profit >= 0, leverage not at or above
    target), which re-levers to target. *)
Theorem leverage_equation :
  (forall e tl rr : pyval,
      let c := generate_company e tl rr in
      val (debt c) == val (equity c) * val (target_leverage c) - val (equity c))
  /\
  (forall (c : company) (al : xnum) (profit : pyval) (year : Z),
      leverage c = Ok al ->
      0 <= val profit -> x_ge al (target_leverage c) = false ->
      let c' := apply_profit c al profit year in
      val (debt c') ==
        val (equity c') * val (target_leverage c') - val (equity c')).
Proof.
  split.
  - intros e tl rr c. subst c. apply generate_company_debt.
  - intros c al profit year _ Hp Hl c'. subst c'.
    destruct (apply_profit_parameters c al profit year) as [-> _].
    apply apply_profit_reinvest; assumption.
Qed.

Lemma leverage_equation_witness :
  leverage after_paydown = Ok (Finite (400 # 329)) /\
  val (debt (apply_profit after_paydown (Finite (400 # 329)) (NdArray 3) 2))
  == val (equity (apply_profit after_paydown (Finite (400 # 329)) (NdArray 3) 2))
     * 2
     - val (equity (apply_profit after_paydown (Finite (400 # 329)) (NdArray 3) 2)).
Proof.
  split; [reflexivity|].
  destruct leverage_equation as [_ H].
  apply (H after_paydown (Finite (400 # 329)) (NdArray 3) 2%Z).
  - reflexivity.
  - vm_compute. discriminate.
  - reflexivity.
Defined.

(** ** The interest rate *)

Lemma debt_cost_finite (c : company) (q : Q) :
  leverage c = Ok (Finite q) ->
  debt_cost c =
    if Qle_bool 0 q
    then Ok (PyNum rfr + PyNum 0.005
             + PyNum (inject_Z (Qfloor (Qred (q * 2)))) * PyNum 0.01)%py
    else Ok (PyNum rfr).
Proof. intro H. unfold debt_cost. rewrite H. reflexivity. Qed.



(** ** The simulation loop *)

(** Inversion of one year: the profit drawn, the leverage of the state the
    year starts in, and the split. *)
Lemma year_step_inv (c : company) (bump : pyval) (year : Z) (g : rng)
    (c' : company) (g' : rng) :
  year_step c bump year g = Ok (c', g') ->
  exists profit al,
    gen_profit c bump g = Ok (profit, g') /\
    leverage c = Ok al /\
    c' = apply_profit c al profit year.
Proof.
  unfold year_step. intro H.
  destruct (gen_profit c bump g) as [[profit g1]| |]; try discriminate.
  cbn in H. destruct (leverage c) as [al| |]; try discriminate.
  cbn in H. injection H as <- <-. exists profit, al. auto.
Qed.

Lemma leverage_no_timeout (c : company) : leverage c <> Timeout.
Proof.
  unfold leverage, py_div.
  destruct (Qeq_bool (val (equity c)) 0); [|discriminate].
  destruct (is_array (debt c + equity c)%py || is_array (equity c));
    discriminate.
Qed.

Lemma debt_cost_no_timeout (c : company) : debt_cost c <> Timeout.
Proof.
  unfold debt_cost. pose proof (leverage_no_timeout c) as H.
  destruct (leverage c) as [al| |]; [|discriminate|contradiction].
  cbn. destruct (x_ge al (PyNum 0)); [|discriminate].
  destruct al; cbn; discriminate.
Qed.

Lemma year_step_no_timeout (c : company) (bump : pyval) (year : Z) (g : rng) :
  year_step c bump year g <> Timeout.
Proof.
  unfold year_step, gen_profit.
  destruct (np_random_choice (choice_a roa_call) g) as [draw g1].
  pose proof (debt_cost_no_timeout c) as Hc.
  destruct (debt_cost c) as [cost| |]; [|discriminate|contradiction].
  cbn. pose proof (leverage_no_timeout c) as Hl.
  destruct (leverage c); [discriminate|discriminate|contradiction].
Qed.

(** The guard [year <= 50] bounds the iterations that remain: the loop never
    needs more fuel than [51 - year]. *)
Lemma while_loop_no_timeout (fuel : nat) :
  forall (c : company) (bump : pyval) (year : Z) (g : rng),
    (51 - year <= Z.of_nat fuel)%Z ->
    while_loop fuel c bump year g <> Timeout.
Proof.
  induction fuel as [|fuel IH]; intros c bump year g Hfuel; cbn [while_loop];
    destruct (loop_guard c year) eqn:Hguard; try discriminate.
  - apply andb_prop in Hguard. destruct Hguard as [_ Hy].
    apply Z.leb_le in Hy. lia.
  - pose proof (year_step_no_timeout c bump (year + 1) g) as Hs.
    destruct (year_step c bump (year + 1) g) as [[c1 g1]| |];
      [|discriminate|contradiction].
    cbn. apply IH. lia.
Qed.

(** The simulation returns a company or raises: the fuel of the model is
    never what stops it. *)
Theorem generate_company_cfs_total (c : company) (bump : pyval) (g : rng) :
  generate_company_cfs c bump g <> Timeout.
Proof. apply while_loop_no_timeout. cbn. lia. Qed.

(** Loop invariants: what holds on entry and is kept by every year holds
    when the loop returns, together with the negated guard. *)
Lemma while_loop_invariant (bump : pyval) (P : company -> Z -> Prop) :
  (forall c year g c' g',
      P c year -> loop_guard c year = true ->
      year_step c bump (year + 1) g = Ok (c', g') ->
      P c' (year + 1)%Z) ->
  forall fuel c year g c' g',
    P c year ->
    while_loop fuel c bump year g = Ok (c', g') ->
    exists year', P c' year' /\ loop_guard c' year' = false.
Proof.
  intros Hstep fuel.
  induction fuel as [|fuel IH]; intros c year g c' g' HP Hrun;
    cbn [while_loop] in Hrun;
    destruct (loop_guard c year) eqn:Hguard; try discriminate.
  - injection Hrun as <- <-. exists year. auto.
  - destruct (year_step c bump (year + 1) g) as [[c1 g1]| |] eqn:Hs;
      try discriminate.
    cbn in Hrun. apply (IH c1 (year + 1)%Z g1 c' g'); [|exact Hrun].
    apply (Hstep c year g c1 g1); assumption.
  - injection Hrun as <- <-. exists year. auto.
Qed.

(** Every year appends exactly one event, dated with the year: a literal 0,
    or the dividend of a reinvestment year. *)
Lemma apply_profit_event (c : company) (al : xnum) (profit : pyval) (year : Z) :
  exists a,
    cfs (apply_profit c al profit year)
      = cfs c ++ [{| amount := a; cf_year := year |}] /\
    (a = PyNum 0 \/
     (0 <= val profit /\ x_ge al (target_leverage c) = false /\
      a = (profit * (PyNum 1 - reinvest_rate c))%py)).
Proof.
  unfold apply_profit.
  destruct (py_ge profit (PyNum 0)) eqn:Hp.
  - apply py_ge_true in Hp. cbn [val] in Hp.
    destruct (x_ge al (target_leverage c)) eqn:Hl; cbn.
    + eexists. split; [reflexivity|]. left. reflexivity.
    + eexists. split; [reflexivity|]. right. auto.
  - cbn. eexists. split; [reflexivity|]. left. reflexivity.
Qed.

(** A year that starts solvent and reinvests a nonnegative share of its
    profit can end with negative equity only through a loss, and then the
    event it records is the literal [[0, year]]. *)
Lemma apply_profit_negative_equity (c : company) (al : xnum) (profit : pyval)
    (year : Z) :
  0 <= val (equity c) -> 0 <= val (reinvest_rate c) ->
  val (equity (apply_profit c al profit year)) < 0 ->
  val profit < 0 /\
  cfs (apply_profit c al profit year)
    = cfs c ++ [{| amount := PyNum 0; cf_year := year |}].
Proof.
  intros He Hrr Hneg.
  destruct (Qlt_le_dec (val profit) 0) as [Hloss|Hgain].
  - split; [exact Hloss|]. apply apply_profit_loss. exact Hloss.
  - exfalso. destruct (x_ge al (target_leverage c)) eqn:Hl.
    + destruct (apply_profit_paydown c al profit year Hgain Hl)
        as (_ & Heq & _).
      rewrite Heq in Hneg. lra.
    + destruct (apply_profit_reinvest c al profit year Hgain Hl)
        as (_ & Heq & _).
      rewrite Heq in Hneg.
      pose proof (Qmult_le_0_compat _ _ Hgain Hrr). lra.
Qed.

Lemma last_event_app (c : company) (l : list cashflow) (ev : cashflow) :
  cfs c = l ++ [ev] -> last_event c = Some ev.
Proof. unfold last_event. intros ->. rewrite rev_unit. reflexivity. Qed.

Lemma years_S (n : nat) : years (S n) = years n ++ [Z.of_nat (S n)].
Proof. unfold years. rewrite seq_S, map_app. reflexivity. Qed.

Section Run.

Variables (c0 : company) (bump : pyval).
Hypothesis fresh : cfs c0 = [].

Lemma run_inv_init : 0 <= val (equity c0) -> run_inv c0 c0 0.
Proof.
  intro He. unfold run_inv. rewrite fresh.
  split; [lia|]. split; [reflexivity|]. split; [auto|]. split; [reflexivity|].
  intros _ Hneg. lra.
Qed.

Lemma run_inv_step (c : company) (year : Z) (g : rng) (c' : company)
    (g' : rng) :
  run_inv c0 c year -> loop_guard c year = true ->
  year_step c bump (year + 1) g = Ok (c', g') ->
  run_inv c0 c' (year + 1).
Proof.
  intros (Hy & Hyears & _ & Hrr & _) Hguard Hstep.
  apply andb_prop in Hguard. destruct Hguard as [He Hle].
  apply py_ge_true in He. cbn [val] in He. apply Z.leb_le in Hle.
  apply year_step_inv in Hstep.
  destruct Hstep as (profit & al & _ & _ & ->).
  destruct (apply_profit_event c al profit (year + 1)) as (a & Hcfs & _).
  destruct (apply_profit_parameters c al profit (year + 1)) as [_ Hrr'].
  unfold run_inv. repeat split; try lia.
  - rewrite Hcfs, map_app, Hyears. cbn [map cf_year].
    replace (Z.to_nat (year + 1)) with (S (Z.to_nat year)) by lia.
    rewrite years_S. f_equal. f_equal. lia.
  - congruence.
  - apply (last_event_app _ (cfs c)).
    apply apply_profit_negative_equity; [assumption|congruence|assumption].
Qed.

(** What a run that returns has recorded. *)
Lemma run_result (g : rng) (c' : company) (g' : rng) :
  0 <= val (equity c0) ->
  generate_company_cfs c0 bump g = Ok (c', g') ->
  exists n : nat,
    (1 <= n <= 51)%nat /\
    map cf_year (cfs c') = years n /\
    reinvest_rate c' = reinvest_rate c0 /\
    ((n <= 50)%nat -> val (equity c') < 0) /\
    (0 <= val (reinvest_rate c0) -> val (equity c') < 0 ->
     last_event c' = Some {| amount := PyNum 0; cf_year := Z.of_nat n |}).
Proof.
  intros He Hrun. unfold generate_company_cfs in Hrun.
  destruct (while_loop_invariant bump (run_inv c0) run_inv_step
              51 c0 0%Z g c' g' (run_inv_init He) Hrun)
    as (year & (Hy & Hyears & Hzero & Hrr & Hlast) & Hguard).
  apply andb_false_iff in Hguard.
  assert (Hexit : val (equity c') < 0 \/ (50 < year)%Z).
  { destruct Hguard as [Hg|Hg].
    - left. apply py_ge_false in Hg. exact Hg.
    - right. apply Z.leb_gt in Hg. exact Hg. }
  exists (Z.to_nat year). repeat split; try lia; try assumption.
  - destruct (Z.eq_dec year 0) as [->|]; [|lia].
    rewrite (Hzero eq_refl) in Hexit. destruct Hexit; [lra|lia].
  - intro Hn. destruct Hexit; [assumption|lia].
  - intros Hrr0 Hneg. destruct (Hlast Hrr0 Hneg) as [Hpos ->].
    rewrite Z2Nat.id by lia. reflexivity.
Qed.

End Run.

(** A run that returns has recorded one event per simulated year, the years
    being [1, 2, ..., n] with [1 <= n <= 51]. *)
Lemma generate_company_cfs_years (e tl rr bump : pyval) (g : rng)
    (c' : company) (g' : rng) :
  0 < val e ->
  generate_company_cfs (generate_company e tl rr) bump g = Ok (c', g') ->
  exists n : nat,
    (1 <= n <= 51)%nat /\ length (cfs c') = n /\
    map cf_year (cfs c') = years n.
Proof.
  intros He Hrun.
  destruct (run_result (generate_company e tl rr) bump eq_refl g c' g')
    as (n & Hn & Hyears & _); [cbn; lra|exact Hrun|].
  exists n. repeat split; try lia; [|exact Hyears].
  rewrite <- (length_map cf_year), Hyears. unfold years.
  rewrite length_map, length_seq. reflexivity.
Qed.

(** C1.  The horizon.  With the default company, the default profit bump
    0.065 and draws that cycle through the four outcomes, the equity never
    goes negative, and the loop records 51 events, dated 1 to 51: the guard
    [year <= 50] is tested before [year] is incremented, so the year 51 is
    still simulated. *)
Theorem fifty_one_years_recorded :
  match generate_company_cfs default_company (PyNum 0.065) cycling_draws with
  | Ok (c', _) =>
      length (cfs c') = 51%nat /\ map cf_year (cfs c') = years 51
  | Raise _ | Timeout => False
  end.
Proof. vm_compute. split; reflexivity. Qed.

(** ** Early exit *)

(** Why the reinvestment rate must not be negative.  The data model has it in
    [0, 1]; the code does not check it, and with a rate of -100 the second
    year, a profit year, takes the reinvestment branch, records a dividend of
    713.99425 and leaves the equity negative. *)
Lemma early_exit_not_always_a_loss :
  ~ early_exit_is_a_loss disinvesting_company (PyNum 0.065) good_years.
Proof.
  intro H.
  destruct (generate_company_cfs disinvesting_company (PyNum 0.065) good_years)
    as [[c' g']| |] eqn:Hrun.
  - specialize (H c' g' Hrun).
    vm_compute in Hrun. injection Hrun as <- _.
    destruct H as (_ & ev & Hlast & Hzero & _).
    + cbn. lia.
    + vm_compute in Hlast. injection Hlast as <-.
      vm_compute in Hzero. discriminate.
  - vm_compute in Hrun. discriminate.
  - vm_compute in Hrun. discriminate.
Qed.

(** C5.  For every trial, that is a company fresh from [generate_company]
    with positive equity and a reinvestment rate of the data model (it lies
    in [0, 1]; only that it is not negative is used): a run that returns
    with fewer than 50 recorded years has negative equity, and its last
    event is the [[0, year]] of the year the loss was made in. *)
Theorem early_exit_after_loss (e tl rr bump : pyval) (g : rng) :
  0 < val e -> 0 <= val rr ->
  early_exit_is_a_loss (generate_company e tl rr) bump g.
Proof.
  intros He Hrr c' g' Hrun Hlen.
  destruct (run_result (generate_company e tl rr) bump eq_refl g c' g')
    as (n & Hn & Hyears & _ & Hneg & Hlast); [cbn; lra|exact Hrun|].
  assert (Hlength : length (cfs c') = n).
  { rewrite <- (length_map cf_year), Hyears. unfold years.
    rewrite length_map, length_seq. reflexivity. }
  rewrite Hlength in *.
  assert (Hequity : val (equity c') < 0) by (apply Hneg; lia).
  split; [exact Hequity|].
  eexists. split; [apply Hlast; [exact Hrr|exact Hequity]|].
  split; reflexivity.
Qed.

Lemma early_exit_after_loss_witness :
  exists (c' : company) (g' : rng),
    generate_company_cfs default_company (PyNum 0.065) bad_years = Ok (c', g')
    /\ length (cfs c') = 5%nat
    /\ val (equity c') < 0
    /\ exists ev, last_event c' = Some ev /\ val (amount ev) == 0
                  /\ cf_year ev = 5%Z.
Proof.
  destruct (generate_company_cfs default_company (PyNum 0.065) bad_years)
    as [[c' g']| |] eqn:Hrun.
  - exists c', g'. split; [reflexivity|].
    assert (Hlen : length (cfs c') = 5%nat).
    { vm_compute in Hrun. injection Hrun as <- _. reflexivity. }
    split; [exact Hlen|].
    destruct (early_exit_after_loss (PyNum 10) (PyNum 2) (PyNum 0.5)
                (PyNum 0.065) bad_years) with (c' := c') (g' := g')
      as (Hneg & ev & Hlast & Hzero & Hyear).
    + vm_compute. reflexivity.
    + vm_compute. discriminate.
    + exact Hrun.
    + rewrite Hlen. lia.
    + split; [exact Hneg|]. exists ev. rewrite Hlen in Hyear. auto.
  - vm_compute in Hrun. discriminate.
  - vm_compute in Hrun. discriminate.
Defined.

(** ** Dividends *)

Lemma dividend_event_nonneg (rr : pyval) (cf : cashflow) :
  val rr <= 1 -> dividend_event rr cf -> 0 <= val (amount cf).
Proof.
  intros Hrr [->|(profit & Hp & ->)].
  - cbn. lra.
  - py_val. apply Qmult_le_0_compat; lra.
Qed.

(** C10.  With a reinvestment rate in [0, 1], every event a simulation
    appends has a nonnegative amount: it is either the literal 0 (paydown
    and loss years) or [profit * (1 - reinvest_rate)] for a profit >= 0
    (reinvestment years). *)
Theorem dividends_nonnegative (c : company) (bump : pyval) (g : rng)
    (c' : company) (g' : rng) :
  0 <= val (reinvest_rate c) <= 1 ->
  generate_company_cfs c bump g = Ok (c', g') ->
  exists appended,
    cfs c' = cfs c ++ appended /\
    Forall (fun cf => dividend_event (reinvest_rate c) cf /\
                      0 <= val (amount cf)) appended.
Proof.
  intros [_ Hrr] Hrun.
  pose (P := fun (d : company) (_ : Z) =>
               reinvest_rate d = reinvest_rate c /\
               exists appended,
                 cfs d = cfs c ++ appended /\
                 Forall (fun cf => dividend_event (reinvest_rate c) cf /\
                                   0 <= val (amount cf)) appended).
  destruct (while_loop_invariant bump P) with
    (fuel := 51%nat) (c := c) (year := 0%Z) (g := g) (c' := c') (g' := g')
    as (year & (_ & Happ) & _).
  - intros d year g1 d' g1' (Hd & appended & Hcfs & Hall) _ Hstep.
    apply year_step_inv in Hstep.
    destruct Hstep as (profit & al & _ & _ & ->).
    destruct (apply_profit_parameters d al profit (year + 1)) as [_ Hrr'].
    destruct (apply_profit_event d al profit (year + 1)) as (a & Ha & Hkind).
    split; [congruence|].
    exists (appended ++ [{| amount := a; cf_year := (year + 1)%Z |}]).
    split; [rewrite Ha, Hcfs, app_assoc; reflexivity|].
    apply Forall_app. split; [exact Hall|].
    constructor; [|constructor].
    assert (Hev : dividend_event (reinvest_rate c)
                    {| amount := a; cf_year := (year + 1)%Z |}).
    { destruct Hkind as [->|(Hp & _ & ->)].
      - left. reflexivity.
      - right. exists profit. rewrite Hd. auto. }
    split; [exact Hev|]. apply (dividend_event_nonneg _ _ Hrr Hev).
  - split; [reflexivity|]. exists []. rewrite app_nil_r. auto.
  - exact Hrun.
  - exact Happ.
Qed.

Lemma dividends_nonnegative_witness :
  exists (c' : company) (g' : rng),
    generate_company_cfs default_company (PyNum 0.065) bad_years = Ok (c', g')
    /\ Forall (fun cf => 0 <= val (amount cf)) (cfs c').
Proof.
  destruct (generate_company_cfs default_company (PyNum 0.065) bad_years)
    as [[c' g']| |] eqn:Hrun.
  - exists c', g'. split; [reflexivity|].
    destruct (dividends_nonnegative default_company (PyNum 0.065) bad_years
                c' g') as (appended & Hcfs & Hall).
    + vm_compute. split; discriminate.
    + exact Hrun.
    + rewrite Hcfs. cbn [default_company generate_company cfs app].
      apply (Forall_impl _ (fun cf H => proj2 H) Hall).
  - vm_compute in Hrun. discriminate.
  - vm_compute in Hrun. discriminate.
Defined.

(** ** The return draw *)

(** A draw is an element of the list it is drawn from, as an array. *)
Lemma np_random_choice_in (a : list Q) (g : rng) :
  a <> [] ->
  exists x, In x a /\ fst (np_random_choice a g) = NdArray x.
Proof.
  intro Ha. unfold np_random_choice, rng_next. cbn [fst].
  eexists. split; [|reflexivity].
  apply nth_In. apply Nat.mod_upper_bound.
  destruct a; [contradiction|discriminate].
Qed.

(** The profit of a year: one of the four outcomes, plus the bump, earned on
    the assets, less the interest on the debt. *)
Lemma gen_profit_roa (c : company) (bump : pyval) (g : rng) (profit : pyval)
    (g' : rng) :
  gen_profit c bump g = Ok (profit, g') ->
  exists x cost,
    In x roa_outcomes /\
    debt_cost c = Ok cost /\
    is_array profit = true /\
    val profit ==
      (x + val bump) * (val (equity c) + val (debt c)) - val cost * val (debt c).
Proof.
  unfold gen_profit. intro H.
  destruct (np_random_choice_in (choice_a roa_call) g) as (x & Hx & Hdraw);
    [discriminate|].
  destruct (np_random_choice (choice_a roa_call) g) as [draw g1].
  cbn [fst] in Hdraw. subst draw.
  destruct (debt_cost c) as [cost| |]; try discriminate.
  cbn [bind] in H. injection H as <- _.
  exists x, cost. repeat split.
  - exact Hx.
  - py_val. reflexivity.
Qed.

(** C4.  The draw.  The weights [.3, .3, .25, .05] of the call are bound to
    the parameter [replace], [p] is left to its default, and the law of the
    draw is uniform: each of 0.3, 0.2, -0.1 and -0.3 has probability 1/4,
    not 0.30, 0.30, 0.25 and 0.05. *)
Theorem roa_draw_is_uniform :
  choice_replace roa_call = inl [0.3; 0.3; 0.25; 0.05] /\
  choice_p roa_call = None /\
  prob (choice_law roa_call) 0.3 == 1 # 4 /\
  prob (choice_law roa_call) 0.2 == 1 # 4 /\
  prob (choice_law roa_call) (-0.1) == 1 # 4 /\
  prob (choice_law roa_call) (-0.3) == 1 # 4 /\
  ~ prob (choice_law roa_call) 0.3 == 0.30 /\
  ~ prob (choice_law roa_call) (-0.3) == 0.05.
Proof. repeat split; vm_compute; congruence. Qed.

(** ** Discounting *)

Lemma Qeq_bool_false (x y : Q) : ~ x == y -> Qeq_bool x y = false.
Proof.
  intro H. destruct (Qeq_bool x y) eqn:E; [|reflexivity].
  apply Qeq_bool_iff in E. contradiction.
Qed.

Lemma discounted_finite (rate : Q) (cf : cashflow) :
  ~ 1 + rate == 0 ->
  exists t, discounted rate cf = Ok (Finite t) /\
            t == val (amount cf) / (1 + rate) ^ cf_year cf.
Proof.
  intro Hrate. unfold discounted, py_pow.
  rewrite (Qeq_bool_false (Qred (1 + rate)) 0)
    by (rewrite Qred_correct; exact Hrate).
  cbn [andb bind]. unfold py_div. cbn [val].
  rewrite Qeq_bool_false.
  - eexists. split; [reflexivity|]. rewrite !Qred_correct. reflexivity.
  - rewrite !Qred_correct. apply Qpower_not_0. exact Hrate.
Qed.

Lemma dcf_accumulate (rate : Q) :
  ~ 1 + rate == 0 ->
  forall (cashflows : list cashflow) (acc : Q),
  exists terms v,
    comprehension (discounted rate) cashflows = Ok terms /\
    fold_left x_add terms (Finite acc) = Finite v /\
    v == acc + present_value cashflows rate.
Proof.
  intros Hrate cashflows.
  induction cashflows as [|cf rest IH]; intro acc.
  - exists [], acc. split; [reflexivity|]. split; [reflexivity|].
    unfold present_value. cbn [fold_right]. ring.
  - destruct (discounted_finite rate cf Hrate) as (t & Ht & Htv).
    destruct (IH (Qred (acc + t))) as (terms & v & Hterms & Hsum & Hv).
    exists (Finite t :: terms), v. cbn [comprehension]. rewrite Ht, Hterms.
    split; [reflexivity|]. split; [exact Hsum|].
    unfold present_value. cbn [fold_right]. fold (present_value rest rate).
    rewrite Hv, Qred_correct, Htv. ring.
Qed.

(** C7.  For a rate other than -1, [dcf] returns the sum over the sequence
    of [amount / (1 + rate) ^ year]; [dcf] of the empty sequence is 0; and an
    omitted rate is [rfr + 0.06]. *)
Theorem dcf_present_value :
  (forall (cashflows : list cashflow) (rate : Q),
      ~ 1 + rate == 0 ->
      exists v, dcf cashflows (Some rate) = Ok (Finite v) /\
                v == present_value cashflows rate) /\
  (forall rate : option Q, dcf [] rate = Ok (Finite 0)) /\
  (forall cashflows : list cashflow,
      dcf cashflows None = dcf cashflows (Some dcf_default_rate)) /\
  dcf_default_rate == rfr + 0.06.
Proof.
  split; [|split; [|split]].
  - intros cashflows rate Hrate.
    destruct (dcf_accumulate rate Hrate cashflows 0)
      as (terms & v & Hterms & Hsum & Hv).
    exists v. unfold dcf, py_sum. rewrite Hterms. cbn [bind]. rewrite Hsum.
    split; [reflexivity|]. rewrite Hv. ring.
  - intros [rate|]; reflexivity.
  - reflexivity.
  - unfold dcf_default_rate. apply Qred_correct.
Qed.

Lemma dcf_present_value_witness :
  exists v, dcf two_dividends (Some 0.1) = Ok (Finite v) /\
            v == present_value two_dividends 0.1.
Proof.
  destruct dcf_present_value as [Hsum _].
  apply (Hsum two_dividends 0.1). vm_compute. discriminate.
Defined.

(** *** Reordering *)

Lemma x_eq_refl (x : xnum) : x_eq x x.
Proof. destruct x; cbn; auto. reflexivity. Qed.

Lemma x_eq_sym (x y : xnum) : x_eq x y -> x_eq y x.
Proof. destruct x, y; cbn; auto. intro H. symmetry. exact H. Qed.

Lemma x_eq_trans (x y z : xnum) : x_eq x y -> x_eq y z -> x_eq x z.
Proof.
  destruct x, y, z; cbn; auto; try contradiction.
  intros H1 H2. rewrite H1. exact H2.
Qed.

Lemma x_add_comm (x y : xnum) : x_eq (x_add x y) (x_add y x).
Proof.
  destruct x, y; cbn; auto. rewrite !Qred_correct. ring.
Qed.

Lemma x_add_assoc (x y z : xnum) :
  x_eq (x_add (x_add x y) z) (x_add x (x_add y z)).
Proof.
  destruct x, y, z; cbn; auto. rewrite !Qred_correct. ring.
Qed.

Lemma x_add_compat (x x' y y' : xnum) :
  x_eq x x' -> x_eq y y' -> x_eq (x_add x y) (x_add x' y').
Proof.
  destruct x, x'; cbn; try contradiction;
    destruct y, y'; cbn; try contradiction; auto.
  intros H1 H2. rewrite !Qred_correct, H1, H2. reflexivity.
Qed.

Lemma x_add_swap (a x y : xnum) :
  x_eq (x_add (x_add a x) y) (x_add (x_add a y) x).
Proof.
  apply (x_eq_trans _ (x_add a (x_add x y))); [apply x_add_assoc|].
  apply (x_eq_trans _ (x_add a (x_add y x))).
  - apply x_add_compat; [apply x_eq_refl|apply x_add_comm].
  - apply x_eq_sym, x_add_assoc.
Qed.

Lemma fold_x_add_compat (l : list xnum) :
  forall a a', x_eq a a' -> x_eq (fold_left x_add l a) (fold_left x_add l a').
Proof.
  induction l as [|x l IH]; intros a a' H; cbn; [exact H|].
  apply IH. apply x_add_compat; [exact H|apply x_eq_refl].
Qed.

(** A sum does not depend on the order of its terms. *)
Lemma fold_x_add_permutation (l l' : list xnum) :
  Permutation l l' ->
  forall a, x_eq (fold_left x_add l a) (fold_left x_add l' a).
Proof.
  induction 1 as [|x l l' _ IH|x y l|l l' l'' _ IH1 _ IH2]; intro a; cbn.
  - apply x_eq_refl.
  - apply IH.
  - apply fold_x_add_compat, x_add_swap.
  - apply (x_eq_trans _ (fold_left x_add l' a)); [apply IH1|apply IH2].
Qed.

(** A comprehension whose body can only fail with [e] either builds the
    list of all the values or fails with [e]. *)
Lemma comprehension_spec {A B : Type} (f : A -> result B) (e : exn) (d : B) :
  (forall x, is_ok (f x) = false -> f x = Raise e) ->
  forall l,
    comprehension f l =
      if forallb (fun x => is_ok (f x)) l
      then Ok (map (fun x => value_or d (f x)) l)
      else Raise e.
Proof.
  intros Hf l. induction l as [|x l IH]; [reflexivity|].
  cbn [comprehension forallb map]. rewrite IH.
  destruct (f x) as [y| |] eqn:Hx.
  - cbn. destruct (forallb (fun x0 => is_ok (f x0)) l); reflexivity.
  - cbn. specialize (Hf x). rewrite Hx in Hf.
    specialize (Hf eq_refl). injection Hf as ->. reflexivity.
  - specialize (Hf x). rewrite Hx in Hf. specialize (Hf eq_refl). discriminate.
Qed.

Lemma forallb_permutation {A : Type} (p : A -> bool) (l l' : list A) :
  Permutation l l' -> forallb p l = forallb p l'.
Proof.
  induction 1 as [|x l l' _ IH|x y l|l l' l'' _ IH1 _ IH2]; cbn.
  - reflexivity.
  - rewrite IH. reflexivity.
  - destruct (p x), (p y); reflexivity.
  - congruence.
Qed.

(** Discounting one cash flow can only fail with [ZeroDivisionError]. *)
Lemma discounted_failure (rate : Q) (cf : cashflow) :
  is_ok (discounted rate cf) = false ->
  discounted rate cf = Raise ZeroDivisionError.
Proof.
  unfold discounted, py_pow, py_div.
  destruct (Qeq_bool (Qred (1 + rate)) 0 && (cf_year cf <? 0)%Z);
    [reflexivity|].
  cbn [bind val].
  destruct (Qeq_bool (Qred (Qred (1 + rate) ^ cf_year cf)) 0);
    [|discriminate].
  destruct (is_array (amount cf) || is_array (PyNum (Qred (Qred (1 + rate) ^ cf_year cf))));
    [discriminate|reflexivity].
Qed.

(** C8.  [dcf] returns the same value on a sequence of cash flows and on
    any permutation of it, at every rate (and fails on the one exactly when
    it fails on the other, with the same exception). *)
Theorem dcf_permutation (cashflows cashflows' : list cashflow)
    (rate : option Q) :
  Permutation cashflows cashflows' ->
  result_eq (dcf cashflows rate) (dcf cashflows' rate).
Proof.
  intro Hperm. unfold dcf.
  set (r := match rate with Some r => r | None => dcf_default_rate end).
  rewrite !(comprehension_spec (discounted r) ZeroDivisionError NaN
              (discounted_failure r)).
  rewrite <- (forallb_permutation _ _ _ Hperm).
  destruct (forallb (fun x => is_ok (discounted r x)) cashflows); cbn.
  - unfold py_sum. apply fold_x_add_permutation.
    apply Permutation_map. exact Hperm.
  - reflexivity.
Qed.

Lemma dcf_permutation_witness :
  Permutation two_dividends (rev two_dividends) /\
  result_eq (dcf two_dividends (Some 0.095))
            (dcf (rev two_dividends) (Some 0.095)).
Proof.
  split.
  - apply Permutation_rev.
  - apply dcf_permutation. apply Permutation_rev.
Defined.

(** ** Zero equity *)

(** C9, as stated, fails from the second simulated year on.  After the first
    year of this run the equity is a numpy array holding 0; the leverage is
    then NaN, [debt_cost] returns the risk-free rate, the year is simulated
    without any exception, and so are all 51 years of the run. *)
Lemma zero_equity_goes_unnoticed :
  exists (c : company) (g : rng),
    year_step unlevered_company (PyNum (-0.7)) 1 worst_years = Ok (c, g) /\
    equity c = NdArray 0 /\
    leverage c = Ok NaN /\
    debt_cost c = Ok (PyNum rfr) /\
    is_ok (year_step c (PyNum (-0.7)) 2 g) = true /\
    is_ok (generate_company_cfs unlevered_company (PyNum (-0.7)) worst_years)
      = true /\
    ~ zero_equity_raises c.
Proof.
  destruct (year_step unlevered_company (PyNum (-0.7)) 1 worst_years)
    as [[c g]| |] eqn:Hstep.
  - exists c, g. vm_compute in Hstep. injection Hstep as <- <-.
    split; [reflexivity|].
    split; [reflexivity|].
    split; [vm_compute; reflexivity|].
    split; [vm_compute; reflexivity|].
    split; [vm_compute; reflexivity|].
    split; [vm_compute; reflexivity|].
    intro H. destruct H as [H _]; [reflexivity|]. vm_compute in H.
    discriminate.
  - vm_compute in Hstep. discriminate.
  - vm_compute in Hstep. discriminate.
Qed.

Lemma py_ge_zero (v : pyval) : val v == 0 -> py_ge v (PyNum 0) = true.
Proof. intro H. apply py_ge_true. cbn [val]. rewrite H. apply Qle_refl. Qed.

Lemma np_zero_divide_cases (n : Q) :
  (0 < n /\ np_zero_divide n = PosInf) \/
  (n < 0 /\ np_zero_divide n = NegInf) \/
  (n == 0 /\ np_zero_divide n = NaN).
Proof.
  unfold np_zero_divide.
  destruct (Qlt_le_dec 0 n) as [Hpos|Hle]; [left; auto|].
  destruct (Qlt_le_dec n 0) as [Hneg|Hge]; [right; left; auto|].
  right; right. split; [|reflexivity]. apply Qle_antisym; assumption.
Qed.

(** C9, amended.  With the equity exactly 0:
    - while equity and debt are plain Python numbers, as [generate_company]
      builds them from Python numbers, the division raises
      [ZeroDivisionError] in [debt_cost], in the simulation step and in the
      simulation;
    - once one of them is a numpy array, as after a simulated year, no
      [ZeroDivisionError] is raised: the leverage is [inf], [-inf] or NaN;
      [debt_cost] returns the risk-free rate when [debt + equity <= 0] and
      fails with [OverflowError], from [math.floor], when
      [debt + equity > 0]. *)
Theorem zero_equity_division (c : company) :
  val (equity c) == 0 ->
  (is_array (equity c) = false -> is_array (debt c) = false ->
   leverage c = Raise ZeroDivisionError /\
   debt_cost c = Raise ZeroDivisionError /\
   forall (bump : pyval) (g : rng),
     (forall year, year_step c bump year g = Raise ZeroDivisionError) /\
     generate_company_cfs c bump g = Raise ZeroDivisionError) /\
  (is_array (equity c) || is_array (debt c) = true ->
   (leverage c = Ok PosInf \/ leverage c = Ok NegInf \/ leverage c = Ok NaN) /\
   (val (debt c) + val (equity c) <= 0 -> debt_cost c = Ok (PyNum rfr)) /\
   (0 < val (debt c) + val (equity c) -> debt_cost c = Raise OverflowError)).
Proof.
  intro Hzero.
  assert (Hdiv : leverage c =
                 if is_array (debt c) || is_array (equity c) || is_array (equity c)
                 then Ok (np_zero_divide (val (debt c + equity c)%py))
                 else Raise ZeroDivisionError).
  { unfold leverage, py_div.
    apply Qeq_bool_iff in Hzero. rewrite Hzero.
    unfold py_add at 1. rewrite is_array_lift2. reflexivity. }
  split.
  - intros He Hd. rewrite He, Hd in Hdiv. cbn [orb] in Hdiv.
    assert (Hcost : debt_cost c = Raise ZeroDivisionError).
    { unfold debt_cost. rewrite Hdiv. reflexivity. }
    assert (Hstep : forall bump year g,
               year_step c bump year g = Raise ZeroDivisionError).
    { intros bump year g. unfold year_step, gen_profit.
      destruct (np_random_choice (choice_a roa_call) g) as [draw g1].
      rewrite Hcost. reflexivity. }
    repeat split; auto.
    unfold generate_company_cfs. cbn [while_loop]. unfold loop_guard.
    rewrite (py_ge_zero _ Hzero). cbn [andb Z.leb Z.compare].
    rewrite Hstep. reflexivity.
  - intro Harr.
    replace (is_array (debt c) || is_array (equity c) || is_array (equity c))
      with true in Hdiv
      by (destruct (is_array (debt c)), (is_array (equity c));
          cbn in *; congruence).
    assert (Hnum : val (debt c + equity c)%py == val (debt c) + val (equity c))
      by apply val_py_add.
    unfold debt_cost. rewrite Hdiv.
    destruct (np_zero_divide_cases (val (debt c + equity c)%py))
      as [[Hs ->]|[[Hs ->]|[Hs ->]]]; rewrite Hnum in Hs;
      (split; [auto|]); cbn; split; intro H; try reflexivity; lra.
Qed.

Lemma zero_equity_division_witness :
  debt_cost empty_company = Raise ZeroDivisionError /\
  generate_company_cfs empty_company (PyNum 0.065) good_years
    = Raise ZeroDivisionError /\
  debt_cost wiped_out_company = Ok (PyNum rfr).
Proof.
  destruct (zero_equity_division empty_company) as [Hpython _];
    [reflexivity|].
  destruct (zero_equity_division wiped_out_company) as [_ Hnumpy];
    [reflexivity|].
  destruct Hpython as (_ & Hcost & Hrun); [reflexivity|reflexivity|].
  destruct Hnumpy as (_ & Hfree & _); [reflexivity|].
  split; [exact Hcost|]. split; [apply Hrun|].
  apply Hfree. vm_compute. discriminate.
Defined.

(** ** The driver *)

(** X18.  [simulate] returns exactly one outcome per trial: a batch that
    returns has [trials] outcomes. *)
Lemma simulate_length (rate : Q) (tl rr bump : pyval) (trials : nat) :
  forall (g : rng) (outcomes : list xnum) (g' : rng),
    simulate rate tl rr trials bump g = Ok (outcomes, g') ->
    length outcomes = trials.
Proof.
  induction trials as [|trials IH]; intros g outcomes g' H;
    cbn [simulate] in H.
  - injection H as <- _. reflexivity.
  - destruct (generate_company_cfs (generate_company (PyNum 10) tl rr) bump g)
      as [[c g1]| |]; try discriminate.
    cbn [bind fst snd] in H.
    destruct (dcf (cfs c) (Some rate)) as [v| |]; try discriminate.
    cbn [bind] in H.
    destruct (simulate rate tl rr trials bump g1) as [[rest g2]| |] eqn:Hrest;
      try discriminate.
    cbn [bind fst snd] in H. injection H as <- _.
    cbn [length]. f_equal. apply (IH g1 rest g2 Hrest).
Qed.

(** * Further properties of the code *)

(** ** A company at its target *)

(** X1.  A company fresh from [generate_company], with nonzero equity, has
    a leverage equal to its target leverage. *)
Theorem fresh_company_at_target (e tl rr : pyval) :
  ~ val e == 0 ->
  exists q, leverage (generate_company e tl rr) = Ok (Finite q) /\
            q == val tl.
Proof.
  intro He.
  destruct (leverage_nonzero (generate_company e tl rr) He) as (q & Hq & Hv).
  exists q. split; [exact Hq|].
  rewrite Hv, generate_company_debt. cbn [equity generate_company].
  field. exact He.
Qed.

Lemma fresh_company_at_target_witness :
  exists q, leverage default_company = Ok (Finite q) /\ q == 2.
Proof.
  apply (fresh_company_at_target (PyNum 10) (PyNum 2) (PyNum 0.5)).
  vm_compute. discriminate.
Defined.

(** One turn of the loop. *)
Lemma while_loop_S (fuel : nat) (c : company) (bump : pyval) (year : Z)
    (g : rng) :
  while_loop (S fuel) c bump year g =
    if loop_guard c year then
      cg <- year_step c bump (year + 1) g ;;
      while_loop fuel (fst cg) bump (year + 1) (snd cg)
    else Ok (c, g).
Proof. reflexivity. Qed.

(** ** The interest rate, continued *)

(** The rate as a function of a finite leverage. *)
Lemma debt_cost_value (c : company) (q : Q) (r : pyval) :
  leverage c = Ok (Finite q) -> debt_cost c = Ok r ->
  is_array r = false /\
  (0 <= q -> val r == rfr + 0.005 + inject_Z (Qfloor (q * 2)) * 0.01) /\
  (q < 0 -> val r == rfr).
Proof.
  intros Hq Hr. rewrite (debt_cost_finite c q Hq) in Hr.
  destruct (Qle_bool 0 q) eqn:E; injection Hr as <-.
  - split; [reflexivity|]. split.
    + intros _. py_val. rewrite (Qfloor_comp _ _ (Qred_correct (q * 2))).
      reflexivity.
    + intro Hneg. apply Qle_bool_iff in E. lra.
  - split; [reflexivity|]. split.
    + intro Hpos. apply Qle_bool_iff in Hpos. congruence.
    + intros _. reflexivity.
Qed.

Lemma Qfloor_nonneg (x : Q) : 0 <= x -> 0 <= inject_Z (Qfloor x).
Proof.
  intro H. apply Qfloor_resp_le in H.
  change (Qfloor 0) with 0%Z in H.
  change 0 with (inject_Z 0). rewrite <- Zle_Qle. exact H.
Qed.

(** What a failure of [debt_cost] tells about the company. *)
Lemma debt_cost_raises (c : company) (e : exn) :
  debt_cost c = Raise e ->
  val (equity c) == 0 /\
  ((e = ZeroDivisionError /\
    is_array (equity c) = false /\ is_array (debt c) = false) \/
   (e = OverflowError /\
    is_array (equity c) || is_array (debt c) = true /\
    0 < val (debt c) + val (equity c))).
Proof.
  unfold debt_cost, leverage, py_div. intro H.
  destruct (Qeq_bool (val (equity c)) 0) eqn:Hzero.
  - apply Qeq_bool_iff in Hzero. split; [exact Hzero|].
    unfold py_add at 1 in H. rewrite is_array_lift2 in H.
    destruct (is_array (debt c)) eqn:Hd, (is_array (equity c)) eqn:He;
      cbn [orb bind] in H;
      try (injection H as <-; left; auto);
      right;
      (destruct (np_zero_divide_cases (val (debt c + equity c)%py))
        as [[Hs Hx]|[[Hs Hx]|[Hs Hx]]]; rewrite Hx in H; cbn in H;
       try discriminate; injection H as <-;
       rewrite val_py_add in Hs; auto).
  - cbn [bind] in H.
    destruct (x_ge (Finite (Qred (val (debt c + equity c)%py / val (equity c))))
                (PyNum 0)); discriminate.
Qed.

(** X3.  How [debt_cost] can fail: with [ZeroDivisionError], which needs
    the equity to be exactly 0 and equity and debt to be plain Python
    numbers, or with the [OverflowError] of [math.floor].  It never applies
    [math.floor] to NaN, so it never raises [ValueError]. *)
Theorem debt_cost_failures (c : company) (e : exn) :
  debt_cost c = Raise e ->
  (e = ZeroDivisionError /\ val (equity c) == 0 /\
   is_array (equity c) = false /\ is_array (debt c) = false) \/
  e = OverflowError.
Proof.
  intro H.
  destruct (debt_cost_raises c e H) as [Hz [(He & Ha)|(Hov & _)]];
    [left; auto|right; exact Hov].
Qed.

Lemma debt_cost_failures_witness :
  val (equity empty_company) == 0 /\
  is_array (equity empty_company) = false.
Proof.
  destruct (debt_cost_failures empty_company ZeroDivisionError eq_refl)
    as [(_ & Hzero & He & _)|Hov].
  - split; assumption.
  - discriminate.
Defined.

(** A rate is a plain Python number, and never below the risk-free rate. *)
Lemma debt_cost_at_least_rfr (c : company) (r : pyval) :
  debt_cost c = Ok r -> is_array r = false /\ rfr <= val r.
Proof.
  intro Hr. unfold debt_cost in Hr.
  destruct (leverage c) as [al| |] eqn:Hal; try discriminate.
  cbn [bind] in Hr. destruct al as [q| | |].
  - assert (Hd : debt_cost c = Ok r)
      by (unfold debt_cost; rewrite Hal; exact Hr).
    destruct (debt_cost_value c q r Hal Hd) as (Harr & Hpos & Hneg).
    split; [exact Harr|].
    destruct (Qlt_le_dec q 0) as [Hq|Hq].
    + rewrite (Hneg Hq). apply Qle_refl.
    + rewrite (Hpos Hq).
      assert (0 <= inject_Z (Qfloor (q * 2))) by (apply Qfloor_nonneg; lra).
      unfold rfr. lra.
  - cbn in Hr. discriminate.
  - cbn in Hr. injection Hr as <-. split; [reflexivity|apply Qle_refl].
  - cbn in Hr. injection Hr as <-. split; [reflexivity|apply Qle_refl].
Qed.

(** X4.  Whenever [debt_cost] returns a rate, it is a plain Python number
    not below the risk-free rate; and for a leverage [al >= 0] it lies within
    one point below [rfr + 0.005 + 0.02 * al]. *)
Theorem debt_cost_bounds (c : company) (r : pyval) :
  debt_cost c = Ok r ->
  is_array r = false /\
  rfr <= val r /\
  (~ val (equity c) == 0 ->
   0 <= (val (debt c) + val (equity c)) / val (equity c) ->
   rfr + 0.005
     + (2 * ((val (debt c) + val (equity c)) / val (equity c)) - 1) * 0.01
     < val r
   /\ val r
      <= rfr + 0.005
         + 2 * ((val (debt c) + val (equity c)) / val (equity c)) * 0.01).
Proof.
  intro Hr.
  pose proof (debt_cost_at_least_rfr c r Hr) as Hbase.
  destruct Hbase as [Harr Hlow]. split; [exact Harr|]. split; [exact Hlow|].
  intros Hne Hal.
  destruct (leverage_nonzero c Hne) as (q & Hq & Hv).
  destruct (debt_cost_value c q r Hq Hr) as (_ & Hpos & _).
  rewrite <- Hv in *. rewrite (Hpos Hal).
  pose proof (Qfloor_le (q * 2)) as Hfl.
  pose proof (Qlt_floor (q * 2)) as Hfu.
  rewrite inject_Z_plus in Hfu. change (inject_Z 1) with 1 in Hfu.
  split; lra.
Qed.

Lemma debt_cost_bounds_witness :
  exists r, debt_cost default_company = Ok r /\
            rfr + 0.005 + (2 * ((10 + 10) / 10) - 1) * 0.01 < val r /\
            val r <= rfr + 0.005 + 2 * ((10 + 10) / 10) * 0.01.
Proof.
  destruct (debt_cost default_company) as [r| |] eqn:Hr.
  - exists r. split; [reflexivity|].
    destruct (debt_cost_bounds default_company r Hr) as (_ & _ & Hb).
    apply Hb; vm_compute; discriminate.
  - vm_compute in Hr. discriminate.
  - vm_compute in Hr. discriminate.
Defined.



(** ** Runs *)

(** Loop invariants that also speak of the generator. *)
Lemma while_loop_invariant_rng (bump : pyval)
    (P : company -> Z -> rng -> Prop) :
  (forall c year g c' g',
      P c year g -> loop_guard c year = true ->
      year_step c bump (year + 1) g = Ok (c', g') ->
      P c' (year + 1)%Z g') ->
  forall fuel c year g c' g',
    P c year g ->
    while_loop fuel c bump year g = Ok (c', g') ->
    exists year', P c' year' g' /\ loop_guard c' year' = false.
Proof.
  intros Hstep fuel.
  induction fuel as [|fuel IH]; intros c year g c' g' HP Hrun.
  - cbn [while_loop] in Hrun.
    destruct (loop_guard c year) eqn:Hguard; try discriminate.
    injection Hrun as <- <-. exists year. auto.
  - rewrite while_loop_S in Hrun.
    destruct (loop_guard c year) eqn:Hguard.
    + destruct (year_step c bump (year + 1) g) as [[c1 g1]| |] eqn:Hs;
        try discriminate.
      cbn [bind fst snd] in Hrun.
      apply (IH c1 (year + 1)%Z g1 c' g'); [|exact Hrun].
      apply (Hstep c year g c1 g1); assumption.
    + injection Hrun as <- <-. exists year. auto.
Qed.

(** A year takes exactly one draw from the generator. *)
Lemma year_step_draw (c : company) (bump : pyval) (year : Z) (g : rng)
    (c' : company) (g' : rng) :
  year_step c bump year g = Ok (c', g') -> g' = snd (rng_next g).
Proof.
  unfold year_step, gen_profit, np_random_choice. intro H.
  destruct (rng_next g) as [i g1]. cbn [snd].
  destruct (debt_cost c) as [cost| |]; try discriminate.
  cbn [bind fst snd] in H.
  destruct (leverage c) as [al| |]; try discriminate.
  cbn [bind] in H. injection H as _ <-. reflexivity.
Qed.

(** After a year, the equity is a numpy value. *)
Lemma year_step_array (c : company) (bump : pyval) (year : Z) (g : rng)
    (c' : company) (g' : rng) :
  year_step c bump year g = Ok (c', g') -> is_array (equity c') = true.
Proof.
  intro H. apply year_step_inv in H.
  destruct H as (profit & al & Hprofit & _ & ->).
  destruct (gen_profit_roa c bump g profit g' Hprofit)
    as (_ & _ & _ & _ & Harr & _).
  unfold apply_profit.
  destruct (py_ge profit (PyNum 0));
    [destruct (x_ge al (target_leverage c))|];
    cbn [equity append_cf set_equity set_debt];
    unfold py_add, py_mul; rewrite ?is_array_lift2, Harr;
    cbn [orb]; apply orb_true_r.
Qed.

Lemma run_trace_step (c : company) (g : rng) (bump : pyval) (d : company)
    (y : Z) (h : rng) (d' : company) (h' : rng) :
  run_trace c g d y h -> loop_guard d y = true ->
  year_step d bump (y + 1) h = Ok (d', h') ->
  run_trace c g d' (y + 1) h'.
Proof.
  intros (Hy & Htl & Hrr & (new & Hcfs & Hlen & Hyears) & Hg & _ & _)
         Hguard Hstep.
  apply andb_prop in Hguard. destruct Hguard as [_ Hle].
  apply Z.leb_le in Hle.
  pose proof (year_step_draw _ _ _ _ _ _ Hstep) as Hdraw.
  pose proof (year_step_array _ _ _ _ _ _ Hstep) as Harr.
  apply year_step_inv in Hstep. destruct Hstep as (profit & al & _ & _ & ->).
  destruct (apply_profit_parameters d al profit (y + 1)) as [Htl' Hrr'].
  destruct (apply_profit_event d al profit (y + 1)) as (a & Ha & _).
  assert (HS : Z.to_nat (y + 1) = S (Z.to_nat y)) by lia.
  unfold run_trace. rewrite HS.
  split; [lia|]. split; [congruence|]. split; [congruence|]. split.
  - exists (new ++ [{| amount := a; cf_year := (y + 1)%Z |}]).
    split; [rewrite Ha, Hcfs, app_assoc; reflexivity|].
    split; [rewrite length_app; cbn [length]; lia|].
    rewrite map_app, Hyears, years_S. cbn [map cf_year].
    f_equal. f_equal. lia.
  - split; [|split; [lia|intros _; exact Harr]].
    intro i. rewrite Hdraw. cbn [rng_next snd]. rewrite Hg.
    f_equal. lia.
Qed.

Lemma run_trace_init (c : company) (g : rng) : run_trace c g c 0 g.
Proof.
  unfold run_trace. split; [lia|]. split; [reflexivity|].
  split; [reflexivity|]. split.
  - exists []. rewrite app_nil_r. repeat split.
  - split; [|split; [reflexivity|lia]].
    intro i. f_equal. cbn. lia.
Qed.

Lemma run_trace_result (c : company) (bump : pyval) (g : rng) (c' : company)
    (g' : rng) :
  generate_company_cfs c bump g = Ok (c', g') ->
  exists y, run_trace c g c' y g' /\ loop_guard c' y = false.
Proof.
  intro Hrun.
  apply (while_loop_invariant_rng bump (run_trace c g)
           (run_trace_step c g bump) 51 c 0%Z g c' g' (run_trace_init c g)).
  exact Hrun.
Qed.

(** X6.  A run never writes the target leverage or the reinvestment rate,
    and only appends to the cash flows: the events the company already had
    stay in place, and the at most 51 new ones are dated 1, 2, ... again. *)
Theorem run_appends (c : company) (bump : pyval) (g : rng) (c' : company)
    (g' : rng) :
  generate_company_cfs c bump g = Ok (c', g') ->
  target_leverage c' = target_leverage c /\
  reinvest_rate c' = reinvest_rate c /\
  exists new,
    cfs c' = cfs c ++ new /\
    (length new <= 51)%nat /\
    map cf_year new = years (length new).
Proof.
  intro Hrun.
  destruct (run_trace_result c bump g c' g' Hrun)
    as (y & (Hy & Htl & Hrr & (new & Hcfs & Hlen & Hyears) & _) & _).
  split; [exact Htl|]. split; [exact Hrr|].
  exists new. rewrite Hlen. split; [exact Hcfs|]. split; [lia|exact Hyears].
Qed.

(** X7.  A run takes one draw per year it records: the generator it hands
    back is the one it was given, advanced by the number of new events. *)
Theorem run_draws (c : company) (bump : pyval) (g : rng) (c' : company)
    (g' : rng) :
  generate_company_cfs c bump g = Ok (c', g') ->
  forall i, g' i = g (i + (length (cfs c') - length (cfs c)))%nat.
Proof.
  intros Hrun i.
  destruct (run_trace_result c bump g c' g' Hrun)
    as (y & (_ & _ & _ & (new & Hcfs & Hlen & _) & Hg & _) & _).
  rewrite Hg, Hcfs, length_app. f_equal. lia.
Qed.

Lemma negative_equity_no_run (c : company) (bump : pyval) (g : rng) :
  val (equity c) < 0 -> generate_company_cfs c bump g = Ok (c, g).
Proof.
  intro Hneg. unfold generate_company_cfs. rewrite while_loop_S.
  unfold loop_guard.
  rewrite (proj2 (py_ge_false (equity c) (PyNum 0)) Hneg). reflexivity.
Qed.

(** X8.  Ruin is final.  A run that returns before its 51st year has left
    the equity negative, and simulating the returned company again, with any
    profit bump and any generator, returns it unchanged, without a draw. *)
Theorem ruin_is_final (c : company) (bump : pyval) (g : rng) (c' : company)
    (g' : rng) :
  generate_company_cfs c bump g = Ok (c', g') ->
  (length (cfs c') < length (cfs c) + 51)%nat ->
  val (equity c') < 0 /\
  forall (bump' : pyval) (h : rng),
    generate_company_cfs c' bump' h = Ok (c', h).
Proof.
  intros Hrun Hearly.
  destruct (run_trace_result c bump g c' g' Hrun)
    as (y & (Hy & _ & _ & (new & Hcfs & Hlen & _) & _) & Hguard).
  assert (Hneg : val (equity c') < 0).
  { apply andb_false_iff in Hguard. destruct Hguard as [Hg|Hg].
    - apply py_ge_false in Hg. exact Hg.
    - apply Z.leb_gt in Hg. rewrite Hcfs, length_app in Hearly. lia. }
  split; [exact Hneg|].
  intros bump' h. apply negative_equity_no_run. exact Hneg.
Qed.

Lemma ruin_is_final_witness :
  exists c' g',
    generate_company_cfs default_company (PyNum 0.065) bad_years = Ok (c', g')
    /\ val (equity c') < 0
    /\ generate_company_cfs c' (PyNum 0.3) good_years = Ok (c', good_years).
Proof.
  destruct (generate_company_cfs default_company (PyNum 0.065) bad_years)
    as [[c' g']| |] eqn:Hrun.
  - exists c', g'. split; [reflexivity|].
    destruct (ruin_is_final default_company (PyNum 0.065) bad_years c' g' Hrun)
      as [Hneg Hagain].
    + vm_compute in Hrun. injection Hrun as <- _. cbn. lia.
    + split; [exact Hneg|apply Hagain].
  - vm_compute in Hrun. discriminate.
  - vm_compute in Hrun. discriminate.
Defined.

Lemma run_appends_witness :
  exists c' g' new,
    generate_company_cfs default_company (PyNum 0.065) bad_years = Ok (c', g')
    /\ cfs c' = cfs default_company ++ new
    /\ map cf_year new = years (length new).
Proof.
  destruct (generate_company_cfs default_company (PyNum 0.065) bad_years)
    as [[c' g']| |] eqn:Hrun.
  - destruct (run_appends default_company (PyNum 0.065) bad_years c' g' Hrun)
      as (_ & _ & new & Hcfs & _ & Hyears).
    exists c', g', new. split; [reflexivity|]. split; assumption.
  - vm_compute in Hrun. discriminate.
  - vm_compute in Hrun. discriminate.
Defined.

Lemma run_draws_witness :
  exists c' g',
    generate_company_cfs default_company (PyNum 0.065) bad_years = Ok (c', g')
    /\ g' 0%nat = bad_years 5%nat.
Proof.
  destruct (generate_company_cfs default_company (PyNum 0.065) bad_years)
    as [[c' g']| |] eqn:Hrun.
  - exists c', g'. split; [reflexivity|].
    rewrite (run_draws default_company (PyNum 0.065) bad_years c' g' Hrun).
    vm_compute in Hrun. injection Hrun as <- _. reflexivity.
  - vm_compute in Hrun. discriminate.
  - vm_compute in Hrun. discriminate.
Defined.

(** A year fails exactly as [debt_cost] fails. *)
Lemma year_step_failure (c : company) (bump : pyval) (year : Z) (g : rng)
    (e : exn) :
  year_step c bump year g = Raise e -> debt_cost c = Raise e.
Proof.
  unfold year_step, gen_profit. intro H.
  destruct (np_random_choice (choice_a roa_call) g) as [draw g1].
  destruct (debt_cost c) as [cost| |] eqn:Hcost; try discriminate.
  - cbn [bind] in H. exfalso.
    unfold debt_cost in Hcost.
    destruct (leverage c) as [al| |]; discriminate.
  - cbn [bind] in H. injection H as <-. reflexivity.
Qed.

Lemma while_loop_failure_array (bump : pyval) (fuel : nat) :
  forall (c : company) (year : Z) (g : rng) (e : exn),
    is_array (equity c) = true ->
    while_loop fuel c bump year g = Raise e -> e = OverflowError.
Proof.
  induction fuel as [|fuel IH]; intros c year g e Harr Hrun.
  - cbn [while_loop] in Hrun. destruct (loop_guard c year); discriminate.
  - rewrite while_loop_S in Hrun.
    destruct (loop_guard c year); try discriminate.
    destruct (year_step c bump (year + 1) g) as [[c1 g1]|e1|] eqn:Hs;
      try discriminate.
    + cbn [bind fst snd] in Hrun.
      apply (IH c1 (year + 1)%Z g1 e); [|exact Hrun].
      apply (year_step_array _ _ _ _ _ _ Hs).
    + cbn [bind] in Hrun. injection Hrun as <-.
      apply year_step_failure in Hs.
      destruct (debt_cost_raises c e1 Hs) as [_ [(_ & He & _)|(Hov & _)]];
        [congruence|exact Hov].
Qed.

(** What a failure of a run tells about the company it started from. *)
Lemma run_raises (c : company) (bump : pyval) (g : rng) (e : exn) :
  generate_company_cfs c bump g = Raise e ->
  (e = ZeroDivisionError /\ val (equity c) == 0 /\
   is_array (equity c) = false /\ is_array (debt c) = false) \/
  e = OverflowError.
Proof.
  unfold generate_company_cfs. rewrite while_loop_S. intro Hrun.
  destruct (loop_guard c 0); try discriminate.
  destruct (year_step c bump (0 + 1) g) as [[c1 g1]|e1|] eqn:Hs;
    try discriminate.
  - cbn [bind fst snd] in Hrun. right.
    apply (while_loop_failure_array bump 50 c1 (0 + 1)%Z g1 e);
      [|exact Hrun].
    apply (year_step_array _ _ _ _ _ _ Hs).
  - cbn [bind] in Hrun. injection Hrun as <-.
    apply year_step_failure in Hs.
    destruct (debt_cost_raises c e1 Hs) as [Hz [(He & Ha)|(Hov & _)]];
      [left; auto|right; exact Hov].
Qed.

(** X9.  How a run can fail.  [ZeroDivisionError] can only come from the
    first year, of a company whose equity is the Python number 0 and whose
    debt is a Python number; every other failure is the [OverflowError] of
    [math.floor].  In particular a run that starts with positive equity
    either returns or fails with [OverflowError]. *)
Theorem run_failures (c : company) (bump : pyval) (g : rng) (e : exn) :
  generate_company_cfs c bump g = Raise e ->
  (e = ZeroDivisionError /\ val (equity c) == 0 /\
   is_array (equity c) = false /\ is_array (debt c) = false) \/
  e = OverflowError.
Proof. apply run_raises. Qed.

Lemma run_failures_witness :
  exists e,
    generate_company_cfs default_company (PyNum (-0.1575)) worst_years
      = Raise e /\ e = OverflowError.
Proof.
  destruct (generate_company_cfs default_company (PyNum (-0.1575)) worst_years)
    as [[c' g']|e|] eqn:Hrun.
  - vm_compute in Hrun. discriminate.
  - exists e. split; [reflexivity|].
    destruct (run_failures default_company (PyNum (-0.1575)) worst_years e
                Hrun) as [(_ & Hz & _)|Hov]; [|exact Hov].
    vm_compute in Hz. discriminate.
  - vm_compute in Hrun. discriminate.
Defined.

(** ** Discounting, continued *)

(** The value [dcf] returns at a rate other than -1. *)
Lemma dcf_value (cashflows : list cashflow) (rate : Q) :
  ~ 1 + rate == 0 ->
  exists v, dcf cashflows (Some rate) = Ok (Finite v) /\
            v == present_value cashflows rate.
Proof.
  intro Hrate.
  destruct (dcf_accumulate rate Hrate cashflows 0)
    as (terms & v & Hterms & Hsum & Hv).
  exists v. unfold dcf, py_sum. rewrite Hterms. cbn [bind]. rewrite Hsum.
  split; [reflexivity|]. rewrite Hv. ring.
Qed.

Lemma present_value_cons (cf : cashflow) (l : list cashflow) (rate : Q) :
  present_value (cf :: l) rate
  = val (amount cf) / (1 + rate) ^ cf_year cf + present_value l rate.
Proof. reflexivity. Qed.

Lemma present_value_app (l1 l2 : list cashflow) (rate : Q) :
  present_value (l1 ++ l2) rate
  == present_value l1 rate + present_value l2 rate.
Proof.
  induction l1 as [|cf l1 IH].
  - cbn [app]. unfold present_value at 2. cbn [fold_right]. ring.
  - cbn [app]. rewrite !present_value_cons, IH. ring.
Qed.

(** X12.  The value of two sequences put end to end is the sum of their
    values (rate other than -1). *)
Theorem dcf_app (l1 l2 : list cashflow) (rate : Q) :
  ~ 1 + rate == 0 ->
  exists v1 v2 v,
    dcf l1 (Some rate) = Ok (Finite v1) /\
    dcf l2 (Some rate) = Ok (Finite v2) /\
    dcf (l1 ++ l2) (Some rate) = Ok (Finite v) /\
    v == v1 + v2.
Proof.
  intro Hrate.
  destruct (dcf_value l1 rate Hrate) as (v1 & H1 & Hv1).
  destruct (dcf_value l2 rate Hrate) as (v2 & H2 & Hv2).
  destruct (dcf_value (l1 ++ l2) rate Hrate) as (v & H & Hv).
  exists v1, v2, v. repeat (split; [assumption|]).
  rewrite Hv, Hv1, Hv2. apply present_value_app.
Qed.

Lemma dcf_app_witness :
  exists v1 v2 v,
    dcf two_dividends (Some 0.1) = Ok (Finite v1) /\
    dcf (rev two_dividends) (Some 0.1) = Ok (Finite v2) /\
    dcf (two_dividends ++ rev two_dividends) (Some 0.1) = Ok (Finite v) /\
    v == v1 + v2.
Proof.
  apply (dcf_app two_dividends (rev two_dividends) 0.1).
  vm_compute. discriminate.
Defined.

(** X13.  Years without a dividend do not count: dropping the events whose
    amount is 0 leaves the value unchanged (rate other than -1). *)
Theorem dcf_ignores_zero_events (cashflows : list cashflow) (rate : Q) :
  ~ 1 + rate == 0 ->
  exists v w,
    dcf cashflows (Some rate) = Ok (Finite v) /\
    dcf (filter pays cashflows) (Some rate) = Ok (Finite w) /\
    v == w.
Proof.
  intro Hrate.
  destruct (dcf_value cashflows rate Hrate) as (v & H & Hv).
  destruct (dcf_value (filter pays cashflows) rate Hrate) as (w & H' & Hw).
  exists v, w. split; [exact H|]. split; [exact H'|].
  rewrite Hv, Hw. clear.
  induction cashflows as [|cf l IH]; [reflexivity|].
  cbn [filter]. unfold pays at 1.
  destruct (Qeq_bool (val (amount cf)) 0) eqn:Hz; cbn [negb].
  - apply Qeq_bool_iff in Hz. rewrite present_value_cons, IH, Hz.
    unfold Qdiv. ring.
  - rewrite !present_value_cons, IH. reflexivity.
Qed.

Lemma dcf_ignores_zero_events_witness :
  exists v w,
    dcf paydown_then_dividend (Some 0.095) = Ok (Finite v) /\
    dcf [ {| amount := NdArray 2.5; cf_year := 2 |} ] (Some 0.095)
      = Ok (Finite w) /\
    v == w.
Proof.
  apply (dcf_ignores_zero_events paydown_then_dividend 0.095).
  vm_compute. discriminate.
Defined.

(** X14.  At a rate of 0 nothing is discounted: the value is the plain
    total of the amounts, whatever the years. *)
Theorem dcf_rate_zero (cashflows : list cashflow) :
  exists v, dcf cashflows (Some 0) = Ok (Finite v) /\ v == total cashflows.
Proof.
  destruct (dcf_value cashflows 0) as (v & H & Hv); [vm_compute; discriminate|].
  exists v. split; [exact H|]. rewrite Hv. clear.
  induction cashflows as [|cf l IH]; [reflexivity|].
  rewrite present_value_cons, IH. unfold total. cbn [fold_right].
  setoid_replace (1 + 0) with 1 by ring. rewrite Qpower_1.
  field.
Qed.

Lemma pow_mono (a b : Q) (n : Z) :
  0 < a -> a <= b -> (0 <= n)%Z -> a ^ n <= b ^ n.
Proof.
  intros Ha Hab Hn. pattern n. apply natlike_ind; [| |exact Hn].
  - rewrite !Qpower_0_r. apply Qle_refl.
  - intros m Hm IH. unfold Z.succ.
    rewrite !Qpower_plus by lra. rewrite !Qpower_1_r.
    assert (0 < a ^ m) by (apply Qpower_0_lt; exact Ha).
    apply Qle_trans with (a ^ m * b).
    + apply Qmult_le_l; assumption.
    + apply Qmult_le_compat_r; [exact IH|lra].
Qed.

(** A later or more heavily discounted payment is worth less. *)
Lemma discount_mono (x a b : Q) (n : Z) :
  0 <= x -> 0 < a -> a <= b -> (0 <= n)%Z -> x / b ^ n <= x / a ^ n.
Proof.
  intros Hx Ha Hab Hn.
  assert (HA : 0 < a ^ n) by (apply Qpower_0_lt; exact Ha).
  assert (HB : 0 < b ^ n) by (apply Qpower_0_lt; lra).
  pose proof (pow_mono a b n Ha Hab Hn) as Hle.
  apply Qle_shift_div_r; [exact HB|].
  assert (Hy : 0 <= x / a ^ n)
    by (apply Qle_shift_div_l; [exact HA|lra]).
  apply Qle_trans with (x / a ^ n * a ^ n).
  - apply Qle_lteq. right. field. lra.
  - rewrite (Qmult_comm _ (a ^ n)), (Qmult_comm _ (b ^ n)).
    apply Qmult_le_compat_r; assumption.
Qed.

Lemma present_value_bounds (l : list cashflow) (rate : Q) :
  0 <= rate ->
  Forall (fun cf => 0 <= val (amount cf) /\ (0 <= cf_year cf)%Z) l ->
  0 <= present_value l rate <= total l.
Proof.
  intros Hrate Hall. induction Hall as [|cf l [Ha Hy] _ IH].
  - unfold present_value, total. cbn [fold_right]. split; apply Qle_refl.
  - rewrite present_value_cons. unfold total. cbn [fold_right].
    fold (total l).
    assert (Hpow : 0 < (1 + rate) ^ cf_year cf) by (apply Qpower_0_lt; lra).
    assert (Hlow : 0 <= val (amount cf) / (1 + rate) ^ cf_year cf)
      by (apply Qle_shift_div_l; [exact Hpow|lra]).
    assert (Hup : val (amount cf) / (1 + rate) ^ cf_year cf
                  <= val (amount cf)).
    { pose proof (discount_mono (val (amount cf)) 1 (1 + rate) (cf_year cf))
        as H.
      rewrite Qpower_1 in H. unfold Qdiv at 2 in H.
      setoid_replace (val (amount cf) * / 1) with (val (amount cf)) in H
        by field.
      apply H; [exact Ha|reflexivity|lra|exact Hy]. }
    destruct IH as [IHl IHu]. split; lra.
Qed.

(** X15.  With a rate that is not negative, amounts that are not negative
    and years from 0 on, the value lies between 0 and the undiscounted total
    of the amounts. *)
Theorem dcf_between_zero_and_total (cashflows : list cashflow) (rate : Q) :
  0 <= rate ->
  Forall (fun cf => 0 <= val (amount cf) /\ (0 <= cf_year cf)%Z) cashflows ->
  exists v, dcf cashflows (Some rate) = Ok (Finite v) /\
            0 <= v <= total cashflows.
Proof.
  intros Hrate Hall.
  destruct (dcf_value cashflows rate) as (v & H & Hv); [lra|].
  exists v. split; [exact H|]. rewrite Hv.
  apply present_value_bounds; assumption.
Qed.

Lemma dcf_between_zero_and_total_witness :
  exists v, dcf two_dividends (Some 0.095) = Ok (Finite v) /\
            0 <= v <= total two_dividends.
Proof.
  apply (dcf_between_zero_and_total two_dividends 0.095).
  - vm_compute. discriminate.
  - repeat constructor; vm_compute; discriminate.
Defined.

(** X16.  A higher rate gives a lower value: for amounts that are not
    negative and years from 0 on, the value does not increase with the rate
    (rates above -1). *)
Theorem dcf_decreases_with_rate (cashflows : list cashflow) (r1 r2 : Q) :
  - (1) < r1 -> r1 <= r2 ->
  Forall (fun cf => 0 <= val (amount cf) /\ (0 <= cf_year cf)%Z) cashflows ->
  exists v1 v2,
    dcf cashflows (Some r1) = Ok (Finite v1) /\
    dcf cashflows (Some r2) = Ok (Finite v2) /\
    v2 <= v1.
Proof.
  intros H1 H12 Hall.
  destruct (dcf_value cashflows r1) as (v1 & Hd1 & Hv1); [lra|].
  destruct (dcf_value cashflows r2) as (v2 & Hd2 & Hv2); [lra|].
  exists v1, v2. split; [exact Hd1|]. split; [exact Hd2|].
  rewrite Hv1, Hv2. clear - H1 H12 Hall.
  induction Hall as [|cf l [Ha Hy] _ IH]; [apply Qle_refl|].
  rewrite !present_value_cons.
  pose proof (discount_mono (val (amount cf)) (1 + r1) (1 + r2) (cf_year cf))
    as H.
  assert (val (amount cf) / (1 + r2) ^ cf_year cf
          <= val (amount cf) / (1 + r1) ^ cf_year cf)
    by (apply H; [exact Ha|lra|lra|exact Hy]).
  lra.
Qed.

Lemma dcf_decreases_with_rate_witness :
  exists v1 v2,
    dcf two_dividends (Some 0.04) = Ok (Finite v1) /\
    dcf two_dividends (Some 0.095) = Ok (Finite v2) /\
    v2 <= v1.
Proof.
  apply (dcf_decreases_with_rate two_dividends 0.04 0.095).
  - reflexivity.
  - vm_compute. discriminate.
  - repeat constructor; vm_compute; discriminate.
Defined.

(** X17.  The value is linear in the amounts: cash flows scaled by [k] are
    worth [k] times as much (rate other than -1). *)
Theorem dcf_scaled (k : Q) (l l' : list cashflow) (rate : Q) :
  ~ 1 + rate == 0 ->
  Forall2 (scaled_cashflow k) l l' ->
  exists v v',
    dcf l (Some rate) = Ok (Finite v) /\
    dcf l' (Some rate) = Ok (Finite v') /\
    v' == k * v.
Proof.
  intros Hrate Hall.
  destruct (dcf_value l rate Hrate) as (v & H & Hv).
  destruct (dcf_value l' rate Hrate) as (v' & H' & Hv').
  exists v, v'. split; [exact H|]. split; [exact H'|].
  rewrite Hv, Hv'. clear - Hall.
  induction Hall as [|cf cf' l l' [[Ha _] Hy] _ IH].
  - unfold present_value. cbn [fold_right]. ring.
  - rewrite !present_value_cons, IH, Ha, Hy. unfold Qdiv. ring.
Qed.

Lemma dcf_scaled_witness :
  exists v v',
    dcf two_dividends (Some 0.095) = Ok (Finite v) /\
    dcf [ {| amount := NdArray 3; cf_year := 2 |};
          {| amount := NdArray 4; cf_year := 1 |} ] (Some 0.095)
      = Ok (Finite v') /\
    v' == 2 * v.
Proof.
  apply (dcf_scaled 2 two_dividends).
  - vm_compute. discriminate.
  - repeat constructor; vm_compute; reflexivity.
Defined.

(** ** The driver, continued *)

(** One step of [simulate]. *)
Lemma simulate_S (rate : Q) (tl rr bump : pyval) (trials : nat) (g : rng) :
  simulate rate tl rr (S trials) bump g =
    cg <- generate_company_cfs (generate_company (PyNum 10) tl rr) bump g ;;
    v <- dcf (cfs (fst cg)) (Some rate) ;;
    rest <- simulate rate tl rr trials bump (snd cg) ;;
    Ok (v :: fst rest, snd rest).
Proof. reflexivity. Qed.

(** X19.  A batch is its trials in sequence: simulating [a + b] trials is
    simulating [a] trials and then [b] more on the generator the first ones
    left, the outcomes of the first coming first.  A failure in either part
    is the failure of the whole. *)
Theorem simulate_app (rate : Q) (tl rr bump : pyval) (a b : nat) :
  forall g : rng,
    simulate rate tl rr (a + b) bump g =
      first <- simulate rate tl rr a bump g ;;
      second <- simulate rate tl rr b bump (snd first) ;;
      Ok (fst first ++ fst second, snd second).
Proof.
  induction a as [|a IH]; intro g.
  - cbn [Nat.add simulate bind fst snd app].
    destruct (simulate rate tl rr b bump g) as [[l h]| |]; reflexivity.
  - cbn [Nat.add]. rewrite !simulate_S.
    destruct (generate_company_cfs (generate_company (PyNum 10) tl rr) bump g)
      as [[c g1]| |]; try reflexivity.
    cbn [bind fst snd].
    destruct (dcf (cfs c) (Some rate)) as [v| |]; try reflexivity.
    cbn [bind]. rewrite IH.
    destruct (simulate rate tl rr a bump g1) as [[l1 h1]| |]; try reflexivity.
    cbn [bind fst snd].
    destruct (simulate rate tl rr b bump h1) as [[l2 h2]| |]; reflexivity.
Qed.

(** The events of a run are nonnegative when those it started with are and
    the reinvestment rate is at most 1. *)
Lemma run_events_nonneg (c : company) (bump : pyval) (g : rng) (c' : company)
    (g' : rng) :
  val (reinvest_rate c) <= 1 ->
  Forall (fun cf => 0 <= val (amount cf)) (cfs c) ->
  generate_company_cfs c bump g = Ok (c', g') ->
  Forall (fun cf => 0 <= val (amount cf)) (cfs c').
Proof.
  intros Hrr Hinit Hrun.
  destruct (while_loop_invariant bump
    (fun d _ => reinvest_rate d = reinvest_rate c /\
                Forall (fun cf => 0 <= val (amount cf)) (cfs d)))
    with (fuel := 51%nat) (c := c) (year := 0%Z) (g := g) (c' := c') (g' := g')
    as (y & (_ & Hall) & _).
  - intros d y g1 d' g1' (Hd & Hall) _ Hstep.
    apply year_step_inv in Hstep. destruct Hstep as (profit & al & _ & _ & ->).
    destruct (apply_profit_parameters d al profit (y + 1)) as [_ Hrr'].
    destruct (apply_profit_event d al profit (y + 1)) as (a & Ha & Hkind).
    split; [congruence|]. rewrite Ha. apply Forall_app. split; [exact Hall|].
    constructor; [|constructor]. cbn [amount].
    apply (dividend_event_nonneg (reinvest_rate c)
             {| amount := a; cf_year := (y + 1)%Z |} Hrr).
    destruct Hkind as [->|(Hp & _ & ->)].
    + left. reflexivity.
    + right. exists profit. rewrite Hd. auto.
  - split; [reflexivity|exact Hinit].
  - exact Hrun.
  - exact Hall.
Qed.

Lemma present_value_nonneg (l : list cashflow) (rate : Q) :
  - (1) < rate ->
  Forall (fun cf => 0 <= val (amount cf)) l ->
  0 <= present_value l rate.
Proof.
  intros Hrate Hall. induction Hall as [|cf l Ha _ IH].
  - apply Qle_refl.
  - rewrite present_value_cons.
    assert (Hpow : 0 < (1 + rate) ^ cf_year cf) by (apply Qpower_0_lt; lra).
    assert (0 <= val (amount cf) / (1 + rate) ^ cf_year cf)
      by (apply Qle_shift_div_l; [exact Hpow|lra]).
    lra.
Qed.

(** X20.  With a reinvestment rate of at most 1 and a discount rate that is
    not negative, no outcome [simulate] returns is negative. *)
Theorem simulate_outcomes_nonneg (rate : Q) (tl rr bump : pyval)
    (trials : nat) :
  val rr <= 1 -> 0 <= rate ->
  forall (g : rng) (outcomes : list xnum) (g' : rng),
    simulate rate tl rr trials bump g = Ok (outcomes, g') ->
    Forall (fun x => x_ge x (PyNum 0) = true) outcomes.
Proof.
  intros Hrr Hrate.
  induction trials as [|trials IH]; intros g outcomes g' H.
  - cbn [simulate] in H. injection H as <- _. constructor.
  - rewrite simulate_S in H.
    destruct (generate_company_cfs (generate_company (PyNum 10) tl rr) bump g)
      as [[c g1]| |] eqn:Hrun; try discriminate.
    cbn [bind fst snd] in H.
    destruct (dcf_value (cfs c) rate) as (v & Hv & Hpv); [lra|].
    rewrite Hv in H. cbn [bind] in H.
    destruct (simulate rate tl rr trials bump g1) as [[rest g2]| |] eqn:Hrest;
      try discriminate.
    cbn [bind fst snd] in H. injection H as <- _.
    constructor.
    + cbn [x_ge val]. apply Qle_bool_iff. rewrite Hpv.
      apply present_value_nonneg; [lra|].
      apply (run_events_nonneg (generate_company (PyNum 10) tl rr) bump g c g1);
        [exact Hrr|constructor|exact Hrun].
    + apply (IH g1 rest g2 Hrest).
Qed.

(** X21.  With a discount rate that is not negative, [simulate] fails only
    with [OverflowError]: a trial starts from the Python equity 10, so its
    first division cannot raise [ZeroDivisionError], after the first year
    the equity is a numpy value, and [dcf] divides by powers of a base of at
    least 1. *)
Theorem simulate_failures (rate : Q) (tl rr bump : pyval) (trials : nat) :
  0 <= rate ->
  forall (g : rng) (e : exn),
    simulate rate tl rr trials bump g = Raise e -> e = OverflowError.
Proof.
  intro Hrate.
  induction trials as [|trials IH]; intros g e H.
  - cbn [simulate] in H. discriminate.
  - rewrite simulate_S in H.
    destruct (generate_company_cfs (generate_company (PyNum 10) tl rr) bump g)
      as [[c g1]|e1|] eqn:Hrun; try discriminate.
    + cbn [bind fst snd] in H.
      destruct (dcf_value (cfs c) rate) as (v & Hv & _); [lra|].
      rewrite Hv in H. cbn [bind] in H.
      destruct (simulate rate tl rr trials bump g1) as [[rest g2]|e2|] eqn:Hrest;
        try discriminate.
      cbn [bind] in H. injection H as <-. apply (IH g1 e2 Hrest).
    + cbn [bind] in H. injection H as <-.
      destruct (run_raises (generate_company (PyNum 10) tl rr) bump g e1 Hrun)
        as [(_ & Hz & _)|Hov];
        [|exact Hov].
      cbn in Hz. vm_compute in Hz. discriminate.
Qed.

Lemma simulate_length_witness :
  exists outcomes g', three_trials = Ok (outcomes, g') /\
                      length outcomes = 3%nat.
Proof.
  destruct three_trials as [[outcomes g']| |] eqn:H.
  - exists outcomes, g'. split; [reflexivity|].
    apply (simulate_length 0.095 (PyNum 2) (PyNum 0.5) (PyNum 0.065) 3
             bad_years outcomes g' H).
  - vm_compute in H. discriminate.
  - vm_compute in H. discriminate.
Defined.

Lemma simulate_outcomes_nonneg_witness :
  exists outcomes g',
    three_trials = Ok (outcomes, g') /\
    Forall (fun x => x_ge x (PyNum 0) = true) outcomes.
Proof.
  destruct three_trials as [[outcomes g']| |] eqn:H.
  - exists outcomes, g'. split; [reflexivity|].
    apply (simulate_outcomes_nonneg 0.095 (PyNum 2) (PyNum 0.5) (PyNum 0.065)
             3) with (g := bad_years) (g' := g').
    + vm_compute. discriminate.
    + vm_compute. discriminate.
    + exact H.
  - vm_compute in H. discriminate.
  - vm_compute in H. discriminate.
Defined.

Lemma simulate_failures_witness :
  exists e,
    simulate 0.095 (PyNum 2) (PyNum 0.5) 1 (PyNum (-0.1575)) worst_years
      = Raise e /\ e = OverflowError.
Proof.
  destruct (simulate 0.095 (PyNum 2) (PyNum 0.5) 1 (PyNum (-0.1575))
              worst_years) as [[outcomes g']|e|] eqn:H.
  - vm_compute in H. discriminate.
  - exists e. split; [reflexivity|].
    apply (simulate_failures 0.095 (PyNum 2) (PyNum 0.5) (PyNum (-0.1575)) 1)
      with (g := worst_years); [vm_compute; discriminate|exact H].
  - vm_compute in H. discriminate.
Defined.

(** ** The profit of a year, continued *)

Lemma roa_outcomes_range (x : Q) : In x roa_outcomes -> -0.3 <= x <= 0.3.
Proof.
  unfold roa_outcomes. cbn [In].
  intros [<-|[<-|[<-|[<-|[]]]]]; split; vm_compute; discriminate.
Qed.

(** X22.  The best and the worst year.  With assets [equity + debt] that are
    not negative, the profit of a year lies between what the worst draw
    (-0.3) and the best draw (0.3) earn on the assets, the bump added, less
    the interest [debt_cost * debt]; and it is a numpy value. *)
Theorem gen_profit_bounds (c : company) (bump : pyval) (g : rng)
    (profit : pyval) (g' : rng) :
  0 <= val (equity c) + val (debt c) ->
  gen_profit c bump g = Ok (profit, g') ->
  exists cost,
    debt_cost c = Ok cost /\
    is_array profit = true /\
    (-0.3 + val bump) * (val (equity c) + val (debt c))
      - val cost * val (debt c) <= val profit /\
    val profit <= (0.3 + val bump) * (val (equity c) + val (debt c))
                  - val cost * val (debt c).
Proof.
  intros Hassets Hprofit.
  destruct (gen_profit_roa c bump g profit g' Hprofit)
    as (x & cost & Hx & Hcost & Harr & Hval).
  destruct (roa_outcomes_range x Hx) as [Hlo Hhi].
  exists cost. split; [exact Hcost|]. split; [exact Harr|].
  rewrite Hval.
  assert (H1 : (-0.3 + val bump) * (val (equity c) + val (debt c))
               <= (x + val bump) * (val (equity c) + val (debt c)))
    by (apply Qmult_le_compat_r; [lra|exact Hassets]).
  assert (H2 : (x + val bump) * (val (equity c) + val (debt c))
               <= (0.3 + val bump) * (val (equity c) + val (debt c)))
    by (apply Qmult_le_compat_r; [lra|exact Hassets]).
  split; lra.
Qed.

Lemma gen_profit_bounds_witness :
  exists profit g' cost,
    gen_profit default_company (PyNum 0.065) good_years = Ok (profit, g') /\
    debt_cost default_company = Ok cost /\
    (-0.3 + 0.065) * (10 + 10) - val cost * 10 <= val profit /\
    val profit <= (0.3 + 0.065) * (10 + 10) - val cost * 10.
Proof.
  destruct (gen_profit default_company (PyNum 0.065) good_years)
    as [[profit g']| |] eqn:H.
  - destruct (gen_profit_bounds default_company (PyNum 0.065) good_years
                profit g') as (cost & Hcost & _ & Hlo & Hhi).
    + vm_compute. discriminate.
    + exact H.
    + exists profit, g', cost. split; [reflexivity|]. auto.
  - revert H. vm_compute. discriminate.
  - revert H. vm_compute. discriminate.
Defined.

(** ** Termination *)

(** Fuel beyond what the guard admits changes nothing. *)
Lemma while_loop_fuel (bump : pyval) (fuel : nat) :
  forall (extra : nat) (c : company) (year : Z) (g : rng),
    (51 - year <= Z.of_nat fuel)%Z ->
    while_loop (fuel + extra) c bump year g = while_loop fuel c bump year g.
Proof.
  induction fuel as [|fuel IH]; intros extra c year g Hfuel.
  - destruct extra as [|extra]; [reflexivity|].
    cbn [Nat.add]. rewrite while_loop_S. cbn [while_loop].
    destruct (loop_guard c year) eqn:Hguard; [|reflexivity].
    apply andb_prop in Hguard. destruct Hguard as [_ Hy].
    apply Z.leb_le in Hy. lia.
  - cbn [Nat.add]. rewrite !while_loop_S.
    destruct (loop_guard c year); [|reflexivity].
    destruct (year_step c bump (year + 1) g) as [[c1 g1]| |];
      try reflexivity.
    cbn [bind fst snd]. apply IH. lia.
Qed.

(** X23.  The loop terminates: for every company, profit bump and
    generator, 51 turns are enough.  Running the model with more fuel gives
    the same outcome, which is a returned company or a Python exception. *)
Theorem run_terminates (c : company) (bump : pyval) (g : rng) (fuel : nat) :
  (51 <= fuel)%nat ->
  while_loop fuel c bump 0 g = generate_company_cfs c bump g /\
  generate_company_cfs c bump g <> Timeout.
Proof.
  intro Hfuel. split.
  - replace fuel with (51 + (fuel - 51))%nat by lia.
    unfold generate_company_cfs. apply while_loop_fuel. cbn. lia.
  - apply while_loop_no_timeout. cbn. lia.
Qed.

Lemma run_terminates_witness :
  while_loop 60 default_company (PyNum 0.065) 0 cycling_draws
  = generate_company_cfs default_company (PyNum 0.065) cycling_draws.
Proof.
  apply (run_terminates default_company (PyNum 0.065) cycling_draws 60).
  lia.
Defined.
